(** * TaskFlow: the task store of [server.ts]

    A shallow embedding of the Express routes of [src/server.ts] and of the
    SQLite tables they work on.  The database handle [db] of the source is a
    value of type [db] that every route takes and returns; a route returns the
    HTTP response together with the database after the request.

    Conventions of the embedding.
    - A table is the list of its rows in rowid order.
    - The text columns of a request body are [option string]: [None] is an
      absent (undefined or null) field, which the driver binds as NULL.
    - [completed] of a request body is an arbitrary JSON value, because the
      routes only look at its truthiness.
    - A timestamp is the number of seconds since the epoch (UTC).  SQLite keeps
      [created_at] as the text YYYY-MM-DD HH:MM:SS, whose text order is the
      order of these numbers, and [date(...)] is the day number.
    - A protected route takes [owner], the [id] of the verified token
      ([req.user.id]); [authenticate] and [handle] put the check of the
      token in front of the routes. *)

From Stdlib Require Import ZArith List String Ascii Bool Lia Permutation Sorted.
Import ListNotations.
Local Open Scope string_scope.
Local Open Scope list_scope.
Local Open Scope Z_scope.

(** ** SQL values, errors and HTTP responses *)

(** A path parameter ([req.params.id], [req.params.taskId]) reaches SQLite as
    text.  Against an INTEGER column the text is converted when it spells an
    integer and is left alone otherwise; [key] is the value after that
    conversion. *)
Inductive key : Type :=
| KInt (z : Z)
| KText (s : string).

Definition key_is (k : key) (id : Z) : bool :=
  match k with
  | KInt z => z =? id
  | KText _ => false
  end.

Inductive sql_error : Type :=
| NotNullFailed (column : string)
| UniqueFailed (column : string)
| ForeignKeyFailed.

Definition message (e : sql_error) : string :=
  match e with
  | NotNullFailed c => String.append "NOT NULL constraint failed: " c
  | UniqueFailed c => String.append "UNIQUE constraint failed: " c
  | ForeignKeyFailed => "FOREIGN KEY constraint failed"
  end.

(** The outcome of [stmt.run]: the value it returns, or the error it throws. *)
Inductive result (A : Type) : Type :=
| Done (a : A)
| Throw (e : sql_error).
Arguments Done {A} a.
Arguments Throw {A} e.

(** What a route answers: [res.json(body)], [res.status(s).json({error})], or
    an exception that leaves the handler and reaches Express's default error
    handler, which answers 500. *)
Inductive response (A : Type) : Type :=
| Json (body : A)
| JsonError (status : Z) (error : string)
| Uncaught (e : sql_error).
Arguments Json {A} body.
Arguments JsonError {A} status error.
Arguments Uncaught {A} e.

Definition status_code {A : Type} (r : response A) : Z :=
  match r with
  | Json _ => 200
  | JsonError s _ => s
  | Uncaught _ => 500
  end.

(** JavaScript's [s.includes(needle)]. *)
Fixpoint includes (needle s : string) : bool :=
  String.prefix needle s ||
  match s with
  | EmptyString => false
  | String _ s' => includes needle s'
  end.

(** [email.split("@")[0]]: the text before the first at sign. *)
Fixpoint before_at (s : string) : string :=
  match s with
  | EmptyString => EmptyString
  | String c s' =>
      if Ascii.eqb c "@"%char then EmptyString else String c (before_at s')
  end.

(** ** Request bodies *)

Inductive json : Type :=
| JNull
| JBool (b : bool)
| JNum (n : Z)
| JStr (s : string)
| JObject.

(** Truthiness of a body field; [None] is [undefined]. *)
Definition truthy (v : option json) : bool :=
  match v with
  | None => false
  | Some JNull => false
  | Some (JBool b) => b
  | Some (JNum n) => negb (n =? 0)
  | Some (JStr s) => negb (String.eqb s "")
  | Some JObject => true
  end.

Definition str_truthy (v : option string) : bool :=
  match v with
  | None => false
  | Some s => negb (String.eqb s "")
  end.

(** [v || d] on a text field. *)
Definition or_else (v : option string) (d : string) : string :=
  match v with
  | Some s => if String.eqb s "" then d else s
  | None => d
  end.

Record task_body : Type := {
  b_title : option string;
  b_description : option string;
  b_priority : option string;
  b_category : option string;
  b_due_date : option string;
  b_completed : option json
}.

Definition set_completed (b : task_body) (v : option json) : task_body :=
  {| b_title := b_title b; b_description := b_description b;
     b_priority := b_priority b; b_category := b_category b;
     b_due_date := b_due_date b; b_completed := v |}.

(** ** The tables *)

Record user : Type := {
  u_id : Z;
  u_email : string;
  u_password : string;
  u_name : string;
  u_avatar_url : option string
}.

Record task : Type := {
  t_id : Z;
  t_user_id : Z;
  t_title : string;
  t_description : option string;
  t_priority : option string;
  t_category : option string;
  t_due_date : option string;
  t_completed : Z;
  t_created_at : Z
}.

Record subtask : Type := {
  s_id : Z;
  s_task_id : key;
  s_title : string;
  s_completed : Z
}.

(** The connection.  [foreign_keys] is the connection's foreign-key pragma;
    the [*_seq] fields are the rows of [sqlite_sequence] that AUTOINCREMENT
    keeps. *)
Record db : Type := {
  foreign_keys : bool;
  users : list user;
  users_seq : Z;
  tasks : list task;
  tasks_seq : Z;
  subtasks : list subtask;
  subtasks_seq : Z
}.

(** [new Database(dbPath)] on a fresh file, followed by the [db.exec] that
    creates the three tables.  The driver (better-sqlite3) opens a connection
    with foreign-key enforcement on, and [server.ts] never turns it off. *)
Definition open_db : db :=
  {| foreign_keys := true;
     users := []; users_seq := 0;
     tasks := []; tasks_seq := 0;
     subtasks := []; subtasks_seq := 0 |}.

Definition with_users (st : db) (l : list user) (seq : Z) : db :=
  {| foreign_keys := foreign_keys st;
     users := l; users_seq := seq;
     tasks := tasks st; tasks_seq := tasks_seq st;
     subtasks := subtasks st; subtasks_seq := subtasks_seq st |}.

Definition with_tasks (st : db) (l : list task) (seq : Z) : db :=
  {| foreign_keys := foreign_keys st;
     users := users st; users_seq := users_seq st;
     tasks := l; tasks_seq := seq;
     subtasks := subtasks st; subtasks_seq := subtasks_seq st |}.

Definition with_subtasks (st : db) (l : list subtask) (seq : Z) : db :=
  {| foreign_keys := foreign_keys st;
     users := users st; users_seq := users_seq st;
     tasks := tasks st; tasks_seq := tasks_seq st;
     subtasks := l; subtasks_seq := seq |}.

(** INTEGER PRIMARY KEY AUTOINCREMENT: one more than the largest rowid the
    table holds or has ever held. *)
Definition max_rowid (ids : list Z) : Z := fold_right Z.max 0 ids.

Definition next_rowid (seq : Z) (ids : list Z) : Z :=
  Z.max seq (max_rowid ids) + 1.

Definition user_exists (st : db) (id : Z) : bool :=
  existsb (fun u => u_id u =? id) (users st).

Definition email_taken (st : db) (email : string) : bool :=
  existsb (fun u => String.eqb (u_email u) email) (users st).

Definition task_exists (st : db) (k : key) : bool :=
  existsb (fun t => key_is k (t_id t)) (tasks st).

(** The rows that [WHERE id = ? AND user_id = ?] selects. *)
Definition selects (k : key) (owner : Z) (t : task) : bool :=
  key_is k (t_id t) && (t_user_id t =? owner).

Definition owns (st : db) (owner : Z) (k : key) : bool :=
  existsb (selects k owner) (tasks st).

(** [SELECT * FROM subtasks WHERE task_id = ?] with an integer argument. *)
Definition subtasks_of (st : db) (id : Z) : list subtask :=
  filter (fun s => key_is (s_task_id s) id) (subtasks st).

Definition find_task (st : db) (id : Z) : option task :=
  find (fun t => t_id t =? id) (tasks st).

(** ** Statements *)

(** INSERT INTO users (email, password, name): [email] is UNIQUE. *)
Definition insert_user (st : db) (email password name : string)
  : result (Z * db) :=
  if email_taken st email then Throw (UniqueFailed "users.email")
  else
    let id := next_rowid (users_seq st) (map u_id (users st)) in
    let row := {| u_id := id; u_email := email; u_password := password;
                  u_name := name; u_avatar_url := None |} in
    Done (id, with_users st (users st ++ [row]) id).

(** INSERT INTO tasks (user_id, title, description, priority, category,
    due_date): [title] is NOT NULL, [user_id] references [users(id)],
    [completed] takes DEFAULT 0 and [created_at] DEFAULT CURRENT_TIMESTAMP. *)
Definition insert_task (st : db) (now : Z) (owner : Z) (title : option string)
  (description : option string) (priority category : string)
  (due_date : option string) : result (Z * db) :=
  match title with
  | None => Throw (NotNullFailed "tasks.title")
  | Some ttl =>
      if foreign_keys st && negb (user_exists st owner)
      then Throw ForeignKeyFailed
      else
        let id := next_rowid (tasks_seq st) (map t_id (tasks st)) in
        let row := {| t_id := id; t_user_id := owner; t_title := ttl;
                      t_description := description;
                      t_priority := Some priority;
                      t_category := Some category;
                      t_due_date := due_date;
                      t_completed := 0; t_created_at := now |} in
        Done (id, with_tasks st (tasks st ++ [row]) id)
  end.

Definition update_row (b : task_body) (title : string) (c : Z) (t : task)
  : task :=
  {| t_id := t_id t; t_user_id := t_user_id t; t_title := title;
     t_description := b_description b; t_priority := b_priority b;
     t_category := b_category b; t_due_date := b_due_date b;
     t_completed := c; t_created_at := t_created_at t |}.

(** UPDATE tasks SET title = ?, description = ?, priority = ?, category = ?,
    due_date = ?, completed = ? WHERE id = ? AND user_id = ?.  The NOT NULL
    check on [title] runs for a selected row only. *)
Definition update_task (st : db) (k : key) (owner : Z) (b : task_body)
  (c : Z) : result db :=
  if owns st owner k then
    match b_title b with
    | None => Throw (NotNullFailed "tasks.title")
    | Some ttl =>
        Done (with_tasks st
                (map (fun t => if selects k owner t
                               then update_row b ttl c t else t) (tasks st))
                (tasks_seq st))
    end
  else Done st.

(** DELETE FROM tasks WHERE id = ? AND user_id = ?.  With foreign keys on,
    ON DELETE CASCADE removes the subtasks that reference a deleted row. *)
Definition delete_task_rows (st : db) (k : key) (owner : Z) : db :=
  let gone := map t_id (filter (selects k owner) (tasks st)) in
  let kept := filter (fun t => negb (selects k owner t)) (tasks st) in
  let subs :=
    if foreign_keys st
    then filter (fun s => negb (existsb (key_is (s_task_id s)) gone))
           (subtasks st)
    else subtasks st in
  {| foreign_keys := foreign_keys st;
     users := users st; users_seq := users_seq st;
     tasks := kept; tasks_seq := tasks_seq st;
     subtasks := subs; subtasks_seq := subtasks_seq st |}.

(** INSERT INTO subtasks (task_id, title): [title] is NOT NULL, [task_id]
    references [tasks(id)], [completed] takes DEFAULT 0. *)
Definition insert_subtask (st : db) (k : key) (title : option string)
  : result (Z * db) :=
  match title with
  | None => Throw (NotNullFailed "subtasks.title")
  | Some ttl =>
      if foreign_keys st && negb (task_exists st k)
      then Throw ForeignKeyFailed
      else
        let id := next_rowid (subtasks_seq st) (map s_id (subtasks st)) in
        let row := {| s_id := id; s_task_id := k; s_title := ttl;
                      s_completed := 0 |} in
        Done (id, with_subtasks st (subtasks st ++ [row]) id)
  end.

(** UPDATE subtasks SET completed = ? WHERE id = ?. *)
Definition update_subtask (st : db) (k : key) (c : Z) : db :=
  with_subtasks st
    (map (fun s => if key_is k (s_id s)
                   then {| s_id := s_id s; s_task_id := s_task_id s;
                           s_title := s_title s; s_completed := c |}
                   else s) (subtasks st))
    (subtasks_seq st).

(** ** Aggregates and ordering *)

(** SUM(...) is NULL over no rows. *)
Definition sql_sum (l : list Z) : option Z :=
  match l with
  | [] => None
  | _ :: _ => Some (fold_right Z.add 0 l)
  end.

Definition b2z (b : bool) : Z := if b then 1 else 0.

(** [priority = 'high'], which is not true of a NULL priority. *)
Definition is_high (t : task) : bool :=
  match t_priority t with
  | Some p => String.eqb p "high"
  | None => false
  end.

Definition seconds_per_day : Z := 86400.

(** [date(created_at)]: the timestamp truncated to its day. *)
Definition date_of (ts : Z) : Z := ts / seconds_per_day.

(** [created_at >= date('now', '-7 days')].  The right-hand side is the date
    seven days before today, a text of the form YYYY-MM-DD; a timestamp of
    that same day is a longer text with that prefix and so compares greater. *)
Definition in_week (now : Z) (t : task) : bool :=
  date_of now - 7 <=? date_of (t_created_at t).

(** GROUP BY with COUNT( * ): one row per distinct day, by ascending day. *)
Fixpoint bump (d : Z) (g : list (Z * Z)) : list (Z * Z) :=
  match g with
  | [] => [(d, 1)]
  | (d', c) :: g' =>
      if d =? d' then (d', c + 1) :: g'
      else if d <? d' then (d, 1) :: (d', c) :: g'
      else (d', c) :: bump d g'
  end.

Fixpoint group_count (days : list Z) : list (Z * Z) :=
  match days with
  | [] => []
  | d :: days' => bump d (group_count days')
  end.

(** ORDER BY created_at DESC, rows of equal time in scan order. *)
Fixpoint insert_desc (t : task) (l : list task) : list task :=
  match l with
  | [] => [t]
  | x :: l' =>
      if t_created_at x <=? t_created_at t then t :: l
      else x :: insert_desc t l'
  end.

Definition order_by_created_desc (l : list task) : list task :=
  fold_right insert_desc [] l.

(** ** Routes *)

Record stats : Type := {
  total : Z;
  completed : option Z;
  high_priority_pending : option Z;
  weekly : list (Z * Z)
}.

Record task_with_subtasks : Type := {
  tw_task : task;
  tw_subtasks : list subtask
}.

Record created_task : Type := {
  ct_id : Z;
  ct_title : option string;
  ct_completed : Z;
  ct_subtasks : list subtask
}.

Record created_subtask : Type := {
  cs_id : Z;
  cs_title : option string;
  cs_completed : Z
}.

Inductive success : Type := Success.

Definition owned_by (owner : Z) (t : task) : bool := t_user_id t =? owner.

(** POST /api/register.  [hashed] is what [bcrypt.hash(password, 10)]
    resolved to. *)
Definition register (st : db) (email password name : option string)
  (hashed : string) : response Z * db :=
  if negb (str_truthy email) || negb (str_truthy password)
  then (JsonError 400 "Email and password required", st)
  else
    match email with
    | Some e =>
        match insert_user st e hashed (or_else name (before_at e)) with
        | Done (id, st') => (Json id, st')
        | Throw err =>
            if includes "UNIQUE constraint failed" (message err)
            then (JsonError 400 "Email already exists", st)
            else (JsonError 500 "Registration failed", st)
        end
    | None => (JsonError 400 "Email and password required", st)
    end.

(** GET /api/stats. *)
Definition get_stats (st : db) (now : Z) (owner : Z) : stats :=
  let mine := filter (owned_by owner) (tasks st) in
  {| total := Z.of_nat (List.length mine);
     completed := sql_sum (map (fun t => b2z (t_completed t =? 1)) mine);
     high_priority_pending :=
       sql_sum (map (fun t => b2z (is_high t && (t_completed t =? 0))) mine);
     weekly :=
       group_count
         (map (fun t => date_of (t_created_at t))
            (filter (fun t => owned_by owner t && in_week now t) (tasks st)))
  |}.

(** GET /api/tasks. *)
Definition get_tasks (st : db) (owner : Z) : list task_with_subtasks :=
  map (fun t => {| tw_task := t; tw_subtasks := subtasks_of st (t_id t) |})
    (order_by_created_desc (filter (owned_by owner) (tasks st))).

(** POST /api/tasks. *)
Definition post_task (st : db) (now : Z) (owner : Z) (b : task_body)
  : response created_task * db :=
  match insert_task st now owner (b_title b) (b_description b)
          (or_else (b_priority b) "medium") (or_else (b_category b) "General")
          (b_due_date b) with
  | Done (id, st') =>
      (Json {| ct_id := id; ct_title := b_title b;
               ct_completed := 0; ct_subtasks := [] |}, st')
  | Throw err => (Uncaught err, st)
  end.

(** PUT /api/tasks/:id. *)
Definition put_task (st : db) (owner : Z) (id : key) (b : task_body)
  : response success * db :=
  match update_task st id owner b (b2z (truthy (b_completed b))) with
  | Done st' => (Json Success, st')
  | Throw err => (Uncaught err, st)
  end.

(** DELETE /api/tasks/:id. *)
Definition delete_task (st : db) (owner : Z) (id : key)
  : response success * db :=
  (Json Success, delete_task_rows st id owner).

(** POST /api/tasks/:taskId/subtasks. *)
Definition post_subtask (st : db) (taskId : key) (title : option string)
  : response created_subtask * db :=
  match insert_subtask st taskId title with
  | Done (id, st') =>
      (Json {| cs_id := id; cs_title := title; cs_completed := 0 |}, st')
  | Throw err => (Uncaught err, st)
  end.

(** PUT /api/subtasks/:id. *)
Definition put_subtask (st : db) (id : key) (c : option json)
  : response success * db :=
  (Json Success, update_subtask st id (b2z (truthy c))).

(** The requests that reach the store, and the database after each. *)
Inductive request : Type :=
| PostRegister (email password name : option string) (hashed : string)
| GetStats (owner : Z)
| GetTasks (owner : Z)
| PostTask (owner : Z) (b : task_body)
| PutTask (owner : Z) (id : key) (b : task_body)
| DeleteTask (owner : Z) (id : key)
| PostSubtask (owner : Z) (taskId : key) (title : option string)
| PutSubtask (owner : Z) (id : key) (c : option json).

Definition serve (st : db) (now : Z) (r : request) : db :=
  match r with
  | PostRegister e p n h => snd (register st e p n h)
  | GetStats _ => st
  | GetTasks _ => st
  | PostTask owner b => snd (post_task st now owner b)
  | PutTask owner id b => snd (put_task st owner id b)
  | DeleteTask owner id => snd (delete_task st owner id)
  | PostSubtask _ k title => snd (post_subtask st k title)
  | PutSubtask _ id c => snd (put_subtask st id c)
  end.

(** Every completion flag of the store is 0 or 1. *)
Definition flag (c : Z) : Prop := c = 0 \/ c = 1.

Definition flags_ok (st : db) : Prop :=
  Forall (fun t => flag (t_completed t)) (tasks st) /\
  Forall (fun s => flag (s_completed s)) (subtasks st).

(** The order of a listing: a row is at least as new as a later one. *)
Definition newer_first (a b : task) : Prop :=
  t_created_at b <= t_created_at a.

(** How often a day occurs in a list of days, and the count that a grouping
    holds for a day. *)
Definition occurrences (d : Z) (days : list Z) : Z :=
  Z.of_nat (List.length (filter (Z.eqb d) days)).

Definition count_in (g : list (Z * Z)) (d : Z) : Z :=
  fold_right Z.add 0 (map snd (filter (fun e => fst e =? d) g)).

(** The owner's tasks created on day [d]. *)
Definition created_on (st : db) (owner d : Z) : list task :=
  filter (fun t => owned_by owner t && (date_of (t_created_at t) =? d))
    (tasks st).

(** The split of an owner's tasks that the statistics count: all of them, the
    completed ones, and the ones that are not completed and of high
    priority. *)
Definition tasks_of (st : db) (owner : Z) : list task :=
  filter (owned_by owner) (tasks st).

Definition is_completed (t : task) : bool := t_completed t =? 1.

Definition completed_of (st : db) (owner : Z) : list task :=
  filter is_completed (tasks_of st owner).

Definition high_pending_of (st : db) (owner : Z) : list task :=
  filter (fun t => negb (is_completed t) && is_high t) (tasks_of st owner).

(** ** Sessions

    [bcrypt.compare], [jwt.sign] and [jwt.verify] belong to libraries; the
    routes are stated over any three functions of their types.  A decoded
    token is a [payload], of which the routes read [id] only. *)

Record identity : Type := {
  i_id : Z;
  i_email : string;
  i_name : string
}.

(** What a route does to the [token] cookie. *)
Inductive cookie_change : Type :=
| KeepCookie
| SetToken (token : string)
| ClearToken.

(** [SELECT * FROM users WHERE email = ?] with [.get]: the first such row. *)
Definition user_by_email (st : db) (email : option string) : option user :=
  match email with
  | Some e => find (fun u => String.eqb (u_email u) e) (users st)
  | None => None
  end.

Section Sessions.

Variable bcrypt_compare : string -> string -> bool.
Variable jwt_sign : identity -> Z -> string.
Variable payload : Type.
Variable payload_id : payload -> Z.
Variable jwt_verify : string -> Z -> option payload.

(** POST /api/login, for a body whose password is a text. *)
Definition login (st : db) (now : Z) (email : option string)
  (password : string) : response identity * cookie_change :=
  match user_by_email st email with
  | Some u =>
      if bcrypt_compare password (u_password u) then
        let who := {| i_id := u_id u; i_email := u_email u;
                      i_name := u_name u |} in
        (Json who, SetToken (jwt_sign who now))
      else (JsonError 401 "Invalid credentials", KeepCookie)
  | None => (JsonError 401 "Invalid credentials", KeepCookie)
  end.

(** The [authenticate] middleware in front of the route [next]. *)
Definition authenticate {A : Type} (now : Z) (token : option string)
  (next : payload -> response A * db) (st : db) : response A * db :=
  if negb (str_truthy token) then (JsonError 401 "Unauthorized", st)
  else
    match token with
    | Some tok =>
        match jwt_verify tok now with
        | Some decoded => next decoded
        | None => (JsonError 401 "Invalid token", st)
        end
    | None => (JsonError 401 "Unauthorized", st)
    end.

(** The routes of the application and the bodies they answer. *)
Inductive route : Type :=
| RRegister (email password name : option string) (hashed : string)
| RLogin (email : option string) (password : string)
| RLogout
| RMe
| RStats
| RTasks
| RPostTask (b : task_body)
| RPutTask (id : key) (b : task_body)
| RDeleteTask (id : key)
| RPostSubtask (taskId : key) (title : option string)
| RPutSubtask (id : key) (c : option json).

Inductive answer : Type :=
| AId (id : Z)
| AIdentity (who : identity)
| APayload (decoded : payload)
| AStats (s : stats)
| ATasks (l : list task_with_subtasks)
| ATask (t : created_task)
| ASubtask (s : created_subtask)
| ASuccess.

Definition reply {A : Type} (f : A -> answer) (r : response A * db)
  : response answer * db :=
  (match fst r with
   | Json body => Json (f body)
   | JsonError s e => JsonError s e
   | Uncaught e => Uncaught e
   end, snd r).

(** The routes that are registered with [authenticate]. *)
Definition protected (r : route) : bool :=
  match r with
  | RRegister _ _ _ _ | RLogin _ _ | RLogout => false
  | _ => true
  end.

(** The application: the answer, the change of the cookie and the database
    after the request. *)
Definition handle (st : db) (now : Z) (token : option string) (r : route)
  : response answer * cookie_change * db :=
  let guarded (next : payload -> response answer * db) :=
    let out := authenticate now token next st in
    (fst out, KeepCookie, snd out) in
  match r with
  | RRegister e p n h =>
      let out := reply AId (register st e p n h) in
      (fst out, KeepCookie, snd out)
  | RLogin e p =>
      let out := login st now e p in
      (match fst out with
       | Json who => Json (AIdentity who)
       | JsonError s err => JsonError s err
       | Uncaught err => Uncaught err
       end, snd out, st)
  | RLogout => (Json ASuccess, ClearToken, st)
  | RMe => guarded (fun u => (Json (APayload u), st))
  | RStats =>
      guarded (fun u => (Json (AStats (get_stats st now (payload_id u))), st))
  | RTasks =>
      guarded (fun u => (Json (ATasks (get_tasks st (payload_id u))), st))
  | RPostTask b =>
      guarded (fun u => reply ATask (post_task st now (payload_id u) b))
  | RPutTask id b =>
      guarded (fun u =>
                 reply (fun _ => ASuccess) (put_task st (payload_id u) id b))
  | RDeleteTask id =>
      guarded (fun u =>
                 reply (fun _ => ASuccess) (delete_task st (payload_id u) id))
  | RPostSubtask k title =>
      guarded (fun _ => reply ASubtask (post_subtask st k title))
  | RPutSubtask id c =>
      guarded (fun _ => reply (fun _ => ASuccess) (put_subtask st id c))
  end.

(** The request of [serve] that a protected route runs for the decoded token
    [u]. *)
Definition request_of (u : payload) (r : route) : option request :=
  match r with
  | RRegister _ _ _ _ | RLogin _ _ | RLogout | RMe => None
  | RStats => Some (GetStats (payload_id u))
  | RTasks => Some (GetTasks (payload_id u))
  | RPostTask b => Some (PostTask (payload_id u) b)
  | RPutTask id b => Some (PutTask (payload_id u) id b)
  | RDeleteTask id => Some (DeleteTask (payload_id u) id)
  | RPostSubtask k title => Some (PostSubtask (payload_id u) k title)
  | RPutSubtask id c => Some (PutSubtask (payload_id u) id c)
  end.

End Sessions.

Arguments authenticate {payload} jwt_verify {A} now token next st.
Arguments handle bcrypt_compare jwt_sign {payload} payload_id jwt_verify
  st now token r.
Arguments request_of {payload} payload_id u r.

(** ** Runs and invariants of the store *)

(** The database after a sequence of requests, each with its time. *)
Fixpoint run (st : db) (rs : list (Z * request)) : db :=
  match rs with
  | [] => st
  | (now, r) :: rs' => run (serve st now r) rs'
  end.

(** Primary keys and the UNIQUE email: no value twice in its column. *)
Definition keys_ok (st : db) : Prop :=
  NoDup (map u_id (users st)) /\
  NoDup (map u_email (users st)) /\
  NoDup (map t_id (tasks st)) /\
  NoDup (map s_id (subtasks st)).

(** Referential integrity on a connection that enforces foreign keys. *)
Definition refs_ok (st : db) : Prop :=
  foreign_keys st = true /\
  Forall (fun t => user_exists st (t_user_id t) = true) (tasks st) /\
  Forall (fun s => task_exists st (s_task_id s) = true) (subtasks st).

(** Every rowid is at most the AUTOINCREMENT counter of its table. *)
Definition seqs_ok (st : db) : Prop :=
  Forall (fun u => u_id u <= users_seq st) (users st) /\
  Forall (fun t => t_id t <= tasks_seq st) (tasks st) /\
  Forall (fun s => s_id s <= subtasks_seq st) (subtasks st).

(** The task requests that the given user sends. *)
Definition task_request_of (owner : Z) (r : request) : Prop :=
  match r with
  | PostTask o _ | PutTask o _ _ | DeleteTask o _ => o = owner
  | _ => False
  end.

(** ** A small database for examples

    Two users; Ann owns tasks 1 and 2, Bob owns task 3; task 1 has two
    subtasks and task 3 has one. *)

Definition ann : user :=
  {| u_id := 1; u_email := "a@x.com"; u_password := "$2a$10$ann";
     u_name := "Ann"; u_avatar_url := None |}.

Definition bob : user :=
  {| u_id := 2; u_email := "b@x.com"; u_password := "$2a$10$bob";
     u_name := "b"; u_avatar_url := None |}.

Definition ship_release : task :=
  {| t_id := 1; t_user_id := 1; t_title := "Ship release";
     t_description := None; t_priority := Some "high";
     t_category := Some "General"; t_due_date := None;
     t_completed := 0; t_created_at := 1000000 |}.

Definition write_notes : task :=
  {| t_id := 2; t_user_id := 1; t_title := "Write notes";
     t_description := Some "weekly"; t_priority := Some "medium";
     t_category := Some "Work"; t_due_date := Some "2026-01-01";
     t_completed := 1; t_created_at := 1090000 |}.

Definition water_plants : task :=
  {| t_id := 3; t_user_id := 2; t_title := "Water plants";
     t_description := None; t_priority := Some "low";
     t_category := Some "Home"; t_due_date := None;
     t_completed := 0; t_created_at := 1100000 |}.

Definition sample_db : db :=
  {| foreign_keys := true;
     users := [ann; bob]; users_seq := 2;
     tasks := [ship_release; write_notes; water_plants]; tasks_seq := 3;
     subtasks :=
       [ {| s_id := 1; s_task_id := KInt 1; s_title := "tag";
            s_completed := 0 |};
         {| s_id := 2; s_task_id := KInt 1; s_title := "publish";
            s_completed := 1 |};
         {| s_id := 3; s_task_id := KInt 3; s_title := "fill can";
            s_completed := 0 |} ];
     subtasks_seq := 3 |}.

(** A body that carries nothing but the given title. *)
Definition title_only (title : option string) : task_body :=
  {| b_title := title; b_description := None; b_priority := None;
     b_category := None; b_due_date := None; b_completed := None |}.

Definition body_of (t : task) : task_body :=
  {| b_title := Some (t_title t); b_description := t_description t;
     b_priority := t_priority t; b_category := t_category t;
     b_due_date := t_due_date t; b_completed := Some (JNum (t_completed t)) |}.

(** A database for the weekly window: Ann and eight of her tasks, created
    at midnight of eight days in a row, the days 0 to 7. *)
Definition task_at (id created : Z) : task :=
  {| t_id := id; t_user_id := 1; t_title := "daily";
     t_description := None; t_priority := Some "medium";
     t_category := Some "General"; t_due_date := None;
     t_completed := 0; t_created_at := created |}.

Definition week_db : db :=
  {| foreign_keys := true;
     users := [ann]; users_seq := 1;
     tasks := map (fun k => task_at (k + 1) (k * 86400))
                [0; 1; 2; 3; 4; 5; 6; 7];
     tasks_seq := 8;
     subtasks := []; subtasks_seq := 0 |}.

(** Stand-ins for the library functions, for examples: a hash is the
    password behind a fixed prefix, and a token is the email it was signed
    for, read back as a payload only for Ann. *)
Definition sample_compare (password hash : string) : bool :=
  String.eqb hash (String.append "$2a$10$" password).

Definition sample_sign (who : identity) (now : Z) : string := i_email who.

Definition sample_verify (token : string) (now : Z) : option identity :=
  if String.eqb token "a@x.com"
  then Some {| i_id := 1; i_email := "a@x.com"; i_name := "Ann" |}
  else None.

(** ** The client (the React component)

    The parts of the component that compute what it sends and what it shows
    next, as functions of the tasks and statistics it holds. *)

(** [task.completed ? 0 : 1]. *)
Definition flip (c : Z) : Z := if negb (c =? 0) then 0 else 1.

(** [toggleTask]: the body of the PUT, [{ ...task, completed: task.completed
    ? 0 : 1 }], of which the route reads the six task fields. *)
Definition toggle_body (t : task) : task_body :=
  set_completed (body_of t)
    (Some (JNum (if negb (t_completed t =? 0) then 0 else 1))).

Definition with_completed (t : task) (c : Z) : task :=
  {| t_id := t_id t; t_user_id := t_user_id t; t_title := t_title t;
     t_description := t_description t; t_priority := t_priority t;
     t_category := t_category t; t_due_date := t_due_date t;
     t_completed := c; t_created_at := t_created_at t |}.

(** [toggleTask]: the list it shows after a successful PUT. *)
Definition shown_after_toggle (t : task) (l : list task_with_subtasks)
  : list task_with_subtasks :=
  map (fun x =>
         if t_id (tw_task x) =? t_id t
         then {| tw_task :=
                   with_completed (tw_task x)
                     (if negb (t_completed t =? 0) then 0 else 1);
                 tw_subtasks := tw_subtasks x |}
         else x) l.

(** [deleteTask]: the list it shows after a successful DELETE. *)
Definition shown_after_delete (id : Z) (l : list task_with_subtasks)
  : list task_with_subtasks :=
  filter (fun x => negb (t_id (tw_task x) =? id)) l.

(** [x || 0] on a number that may be null. *)
Definition or_zero (v : option Z) : Z :=
  match v with
  | Some n => n
  | None => 0
  end.

(** [pieData]: the two slices of the chart; [total - null] is [total]. *)
Definition pieData (s : option stats) : list (string * Z) :=
  match s with
  | Some st =>
      [ ("Completed", or_zero (completed st));
        ("Pending", total st - or_zero (completed st)) ]
  | None => []
  end.

(** * Properties *)

(** ** Facts about lists used throughout *)

Lemma filter_all {A : Type} (p : A -> bool) (l : list A) :
  (forall x, In x l -> p x = true) -> filter p l = l.
Proof.
  induction l as [|a l IH]; intros H; simpl; [reflexivity|].
  rewrite (H a (or_introl eq_refl)), IH; [reflexivity|].
  intros x Hx; apply H; right; exact Hx.
Qed.

Lemma filter_none {A : Type} (p : A -> bool) (l : list A) :
  (forall x, In x l -> p x = false) -> filter p l = [].
Proof.
  induction l as [|a l IH]; intros H; simpl; [reflexivity|].
  rewrite (H a (or_introl eq_refl)). apply IH.
  intros x Hx; apply H; right; exact Hx.
Qed.

Lemma existsb_false_iff {A : Type} (p : A -> bool) (l : list A) :
  existsb p l = false <-> forall x, In x l -> p x = false.
Proof.
  induction l as [|a l IH]; simpl.
  - split; [intros _ x []|reflexivity].
  - rewrite orb_false_iff, IH. split.
    + intros [Ha Hl] x [<-|Hx]; auto.
    + intros H; split; [apply H; left; reflexivity|].
      intros x Hx; apply H; right; exact Hx.
Qed.

Lemma find_map_stable {A : Type} (p : A -> bool) (g : A -> A) (l : list A) :
  (forall x, p (g x) = p x) ->
  find p (map g l) = option_map g (find p l).
Proof.
  intros Hp. induction l as [|a l IH]; simpl; [reflexivity|].
  rewrite Hp. destruct (p a); [reflexivity|exact IH].
Qed.

Lemma key_is_int (a b : Z) : key_is (KInt a) b = true <-> a = b.
Proof. simpl. apply Z.eqb_eq. Qed.

(** ** Deleting a task *)

(** With foreign keys on, the cascade of a delete that selects a row removes
    exactly the subtasks whose [task_id] is the deleted id. *)
Lemma cascade_of_owned (st : db) (owner id : Z) :
  foreign_keys st = true ->
  owns st owner (KInt id) = true ->
  subtasks (delete_task_rows st (KInt id) owner) =
  filter (fun s => negb (key_is (s_task_id s) id)) (subtasks st).
Proof.
  intros Hfk Hown. unfold delete_task_rows; simpl. rewrite Hfk.
  apply filter_ext. intros s. f_equal.
  unfold owns in Hown. apply existsb_exists in Hown as [t [Ht Hsel]].
  destruct (key_is (s_task_id s) id) eqn:E.
  - apply existsb_exists. exists (t_id t). split.
    + apply in_map, filter_In. split; assumption.
    + unfold selects in Hsel. apply andb_true_iff in Hsel as [Hk _].
      apply key_is_int in Hk. subst id. exact E.
  - apply existsb_false_iff. intros x Hx.
    apply in_map_iff in Hx as [t' [<- Ht']].
    apply filter_In in Ht' as [_ Hsel'].
    unfold selects in Hsel'. apply andb_true_iff in Hsel' as [Hk _].
    apply key_is_int in Hk. subst id. exact E.
Qed.

Lemma delete_unselected (st : db) (owner : Z) (k : key) :
  owns st owner k = false -> delete_task_rows st k owner = st.
Proof.
  intros Hown. unfold owns in Hown.
  rewrite existsb_false_iff in Hown.
  unfold delete_task_rows.
  rewrite (filter_none (selects k owner)) by exact Hown. simpl.
  rewrite (filter_all (fun t => negb (selects k owner t)))
    by (intros x Hx; rewrite (Hown x Hx); reflexivity).
  rewrite (filter_all (fun s => negb false)) by reflexivity.
  destruct st as [fk us useq ts tseq ss sseq]; simpl.
  destruct fk; reflexivity.
Qed.

(** C1: for a task id owned by the owner, DeleteTask answers success, leaves
    no row of that id owned by the owner, keeps every other task row, removes
    exactly the subtasks whose task_id is that id (so that the task has no
    subtask afterwards) and leaves the subtasks of every other task as they
    were. *)
Theorem delete_task_cascades (st : db) (owner id : Z) :
  foreign_keys st = true ->
  owns st owner (KInt id) = true ->
  let st' := snd (delete_task st owner (KInt id)) in
  fst (delete_task st owner (KInt id)) = Json Success /\
  owns st' owner (KInt id) = false /\
  tasks st' = filter (fun t => negb (selects (KInt id) owner t)) (tasks st) /\
  subtasks st' =
    filter (fun s => negb (key_is (s_task_id s) id)) (subtasks st) /\
  subtasks_of st' id = [] /\
  (forall other, other <> id -> subtasks_of st' other = subtasks_of st other).
Proof.
  intros Hfk Hown st'. subst st'. simpl.
  pose proof (cascade_of_owned st owner id Hfk Hown) as Hsub.
  repeat split.
  - unfold owns. apply existsb_false_iff. intros t Ht. simpl in Ht.
    apply filter_In in Ht as [_ Ht]. apply negb_true_iff in Ht. exact Ht.
  - exact Hsub.
  - unfold subtasks_of. rewrite Hsub. apply filter_none.
    intros s Hs. apply filter_In in Hs as [_ Hs].
    apply negb_true_iff in Hs. exact Hs.
  - intros other Hne. unfold subtasks_of. rewrite Hsub. clear Hsub.
    induction (subtasks st) as [|s l IH]; simpl; [reflexivity|].
    destruct (key_is (s_task_id s) id) eqn:E1; simpl.
    + destruct (key_is (s_task_id s) other) eqn:E2; [|exact IH].
      destruct (s_task_id s) as [z|txt]; simpl in *; try discriminate.
      apply Z.eqb_eq in E1, E2. congruence.
    + rewrite IH. reflexivity.
Qed.

(** ** Requests on a task of somebody else *)

Lemma update_unselected (st : db) (owner : Z) (k : key) (b : task_body)
  (c : Z) :
  owns st owner k = false -> update_task st k owner b c = Done st.
Proof. intros H. unfold update_task. rewrite H. reflexivity. Qed.

(** C3: when the id selects no task of the requesting user, UpdateTask and
    DeleteTask both answer success and leave the whole database as it was. *)
Theorem foreign_task_is_untouched (st : db) (owner : Z) (id : key)
  (b : task_body) :
  owns st owner id = false ->
  put_task st owner id b = (Json Success, st) /\
  delete_task st owner id = (Json Success, st).
Proof.
  intros H. split.
  - unfold put_task. rewrite update_unselected by exact H. reflexivity.
  - unfold delete_task. rewrite delete_unselected by exact H. reflexivity.
Qed.

Lemma delete_task_cascades_witness :
  subtasks_of (snd (delete_task sample_db 1 (KInt 1))) 1 = [] /\
  subtasks_of (snd (delete_task sample_db 1 (KInt 1))) 3 =
  subtasks_of sample_db 3.
Proof.
  destruct (delete_task_cascades sample_db 1 1 eq_refl eq_refl)
    as (_ & _ & _ & _ & H0 & Hother).
  split; [exact H0|apply Hother; discriminate].
Defined.

Lemma foreign_task_is_untouched_witness :
  put_task sample_db 1 (KInt 3) (body_of water_plants) =
    (Json Success, sample_db) /\
  delete_task sample_db 1 (KInt 3) = (Json Success, sample_db).
Proof. apply foreign_task_is_untouched. reflexivity. Defined.

(** ** Registration *)

Lemma unique_message_is_recognised (c : string) :
  includes "UNIQUE constraint failed" (message (UniqueFailed c)) = true.
Proof. reflexivity. Qed.

Lemma register_keeps_tasks (st : db) (e p n : option string) (h : string) :
  tasks (snd (register st e p n h)) = tasks st /\
  subtasks (snd (register st e p n h)) = subtasks st /\
  foreign_keys (snd (register st e p n h)) = foreign_keys st.
Proof.
  unfold register.
  destruct (negb (str_truthy e) || negb (str_truthy p)); [auto|].
  destruct e as [e|]; [|auto].
  unfold insert_user. destruct (email_taken st e); simpl; auto.
Qed.

(** C7: when a user row with the email exists, Register answers 400 and the
    database is unchanged, and the error is the conflict error whenever the
    email and the password are both present; when the email or the password
    is missing, Register answers the validation error with status 400 and the
    database is unchanged. *)
Theorem register_rejects (st : db) (email password name : option string)
  (hashed : string) :
  (forall e, email = Some e -> email_taken st e = true ->
     status_code (fst (register st email password name hashed)) = 400 /\
     snd (register st email password name hashed) = st /\
     (str_truthy email = true -> str_truthy password = true ->
      register st email password name hashed =
        (JsonError 400 "Email already exists", st))) /\
  (str_truthy email = false \/ str_truthy password = false ->
   register st email password name hashed =
     (JsonError 400 "Email and password required", st)).
Proof.
  split.
  - intros e -> Htaken. unfold register, insert_user. rewrite Htaken.
    destruct (negb (str_truthy (Some e)) || negb (str_truthy password)) eqn:E.
    + repeat split. intros H1 H2. rewrite H1, H2 in E. discriminate.
    + rewrite unique_message_is_recognised. repeat split.
  - intros H. unfold register.
    destruct H as [H|H]; rewrite H; simpl; [reflexivity|].
    rewrite orb_true_r. reflexivity.
Qed.

Lemma register_rejects_witness :
  register sample_db (Some "a@x.com") (Some "pw") (Some "Ann") "$2a$10$new" =
    (JsonError 400 "Email already exists", sample_db) /\
  register sample_db (Some "c@x.com") None None "$2a$10$new" =
    (JsonError 400 "Email and password required", sample_db).
Proof.
  destruct (register_rejects sample_db (Some "a@x.com") (Some "pw")
              (Some "Ann") "$2a$10$new") as [H _].
  destruct (H "a@x.com" eq_refl eq_refl) as (_ & _ & Hconflict).
  destruct (register_rejects sample_db (Some "c@x.com") None None
              "$2a$10$new") as [_ Hmissing].
  split; [apply Hconflict; reflexivity|apply Hmissing; right; reflexivity].
Defined.

(** ** The completion flag *)

Lemma b2z_flag (b : bool) : flag (b2z b).
Proof. destruct b; [right|left]; reflexivity. Qed.

Lemma flag_zero : flag 0.
Proof. left; reflexivity. Qed.

Create HintDb flags.
#[local] Hint Resolve b2z_flag flag_zero : flags.
#[local] Hint Resolve Forall_nil : flags.

Lemma Forall_snoc {A : Type} (P : A -> Prop) (l : list A) (x : A) :
  Forall P l -> P x -> Forall P (l ++ [x]).
Proof.
  intros Hl Hx. apply Forall_app. split; [exact Hl|].
  constructor; [exact Hx|constructor].
Qed.

Lemma Forall_filter_keep {A : Type} (P : A -> Prop) (p : A -> bool)
  (l : list A) : Forall P l -> Forall P (filter p l).
Proof.
  rewrite !Forall_forall. intros H x Hx.
  apply filter_In in Hx as [Hx _]. auto.
Qed.

(** CreateTask stores the flag 0. *)
Lemma post_task_flags (st : db) (now owner : Z) (b : task_body) :
  flags_ok st -> flags_ok (snd (post_task st now owner b)).
Proof.
  intros [Ht Hs]. unfold post_task, insert_task.
  destruct (b_title b); [|split; assumption].
  destruct (foreign_keys st && negb (user_exists st owner));
    [split; assumption|].
  split; simpl; [|exact Hs].
  apply Forall_snoc; [exact Ht|]. simpl. auto with flags.
Qed.

(** UpdateTask stores 1 for a truthy value and 0 for any other. *)
Lemma put_task_flags (st : db) (owner : Z) (id : key) (b : task_body) :
  flags_ok st -> flags_ok (snd (put_task st owner id b)).
Proof.
  intros [Ht Hs]. unfold put_task, update_task.
  destruct (owns st owner id); [|split; assumption].
  destruct (b_title b); [|split; assumption].
  split; simpl; [|exact Hs].
  rewrite Forall_forall in *. intros t Hin.
  apply in_map_iff in Hin as [t0 [<- Hin0]].
  destruct (selects id owner t0); simpl; auto with flags.
Qed.

Lemma delete_task_flags (st : db) (owner : Z) (id : key) :
  flags_ok st -> flags_ok (snd (delete_task st owner id)).
Proof.
  intros [Ht Hs]. split; simpl.
  - apply Forall_filter_keep, Ht.
  - destruct (foreign_keys st); [apply Forall_filter_keep|]; exact Hs.
Qed.

(** CreateSubtask stores the flag 0. *)
Lemma post_subtask_flags (st : db) (k : key) (title : option string) :
  flags_ok st -> flags_ok (snd (post_subtask st k title)).
Proof.
  intros [Ht Hs]. unfold post_subtask, insert_subtask.
  destruct title; [|split; assumption].
  destruct (foreign_keys st && negb (task_exists st k));
    [split; assumption|].
  split; simpl; [exact Ht|].
  apply Forall_snoc; [exact Hs|]. simpl. auto with flags.
Qed.

(** UpdateSubtask stores 1 for a truthy value and 0 for any other. *)
Lemma put_subtask_flags (st : db) (id : key) (c : option json) :
  flags_ok st -> flags_ok (snd (put_subtask st id c)).
Proof.
  intros [Ht Hs]. split; simpl; [exact Ht|].
  rewrite Forall_forall in *. intros s Hin.
  apply in_map_iff in Hin as [s0 [<- Hin0]].
  destruct (key_is id (s_id s0)); simpl; auto with flags.
Qed.

(** C8: every request keeps every completion flag of the store in {0, 1}:
    the two creations store 0, the two updates store the request's value
    coerced to 0 or 1, and nothing else writes the column. *)
Theorem completion_flag_invariant (st : db) (now : Z) (r : request) :
  flags_ok st -> flags_ok (serve st now r).
Proof.
  intros H. destruct r; simpl; try exact H.
  - destruct H as [Ht Hs].
    destruct (register_keeps_tasks st email password name hashed)
      as (Et & Es & _).
    split; [rewrite Et|rewrite Es]; assumption.
  - apply post_task_flags, H.
  - apply put_task_flags, H.
  - apply delete_task_flags, H.
  - apply post_subtask_flags, H.
  - apply put_subtask_flags, H.
Qed.

Lemma sample_flags_ok : flags_ok sample_db.
Proof.
  split; repeat constructor; simpl; auto with flags; right; reflexivity.
Qed.

Lemma completion_flag_invariant_witness :
  flags_ok
    (serve sample_db 1200000
       (PutTask 1 (KInt 1)
          (set_completed (body_of ship_release) (Some (JStr "yes"))))).
Proof. apply completion_flag_invariant. exact sample_flags_ok. Defined.

(** ** Toggling completion *)

Lemma find_task_owns (st : db) (id : Z) (t : task) :
  find_task st id = Some t -> owns st (t_user_id t) (KInt id) = true.
Proof.
  intros H. apply find_some in H as [Hin Hid].
  apply existsb_exists. exists t. split; [exact Hin|].
  unfold selects. simpl. rewrite Z.eqb_sym, Hid, Z.eqb_refl. reflexivity.
Qed.

Lemma find_task_selected (st : db) (id : Z) (t : task) :
  find_task st id = Some t -> selects (KInt id) (t_user_id t) t = true.
Proof.
  intros H. apply find_some in H as [_ Hid].
  unfold selects. simpl. rewrite Z.eqb_sym, Hid, Z.eqb_refl. reflexivity.
Qed.

(** An update of an owned task with a title rewrites the row in place. *)
Lemma put_task_owned (st : db) (id : Z) (t : task) (b : task_body)
  (ttl : string) :
  find_task st id = Some t ->
  b_title b = Some ttl ->
  fst (put_task st (t_user_id t) (KInt id) b) = Json Success /\
  find_task (snd (put_task st (t_user_id t) (KInt id) b)) id =
    Some (update_row b ttl (b2z (truthy (b_completed b))) t).
Proof.
  intros Hfind Httl. unfold put_task, update_task.
  rewrite (find_task_owns _ _ _ Hfind), Httl. simpl. split; [reflexivity|].
  unfold find_task. simpl.
  rewrite find_map_stable.
  - unfold find_task in Hfind. rewrite Hfind. simpl.
    rewrite (find_task_selected _ _ _ Hfind). reflexivity.
  - intros x. destruct (selects (KInt id) (t_user_id t) x); reflexivity.
Qed.

(** An update without a title is refused by NOT NULL and changes nothing. *)
Lemma put_task_untitled (st : db) (owner : Z) (id : key) (b : task_body) :
  b_title b = None -> snd (put_task st owner id b) = st.
Proof.
  intros H. unfold put_task, update_task. rewrite H.
  destruct (owns st owner id); reflexivity.
Qed.

(** C9: on a task whose stored flag is 0, an update with a truthy completed
    followed by an update with a falsy completed and the same other fields
    leaves the stored flag at 0; with a title in the body the row holds 1 in
    between, and when the other fields are the row's own the row is again
    the original row. *)
Theorem toggle_round_trip (st : db) (id : Z) (t : task) (b : task_body)
  (von voff : option json) :
  find_task st id = Some t ->
  t_completed t = 0 ->
  truthy von = true ->
  truthy voff = false ->
  let owner := t_user_id t in
  let st1 := snd (put_task st owner (KInt id) (set_completed b von)) in
  let st2 := snd (put_task st1 owner (KInt id) (set_completed b voff)) in
  (exists t2, find_task st2 id = Some t2 /\ t_completed t2 = 0) /\
  (forall ttl, b_title b = Some ttl ->
     find_task st1 id = Some (update_row b ttl 1 t) /\
     find_task st2 id = Some (update_row b ttl 0 t)) /\
  (b_title b = Some (t_title t) -> b_description b = t_description t ->
   b_priority b = t_priority t -> b_category b = t_category t ->
   b_due_date b = t_due_date t ->
   find_task st2 id = Some t).
Proof.
  intros Hfind Hzero Hon Hoff owner st1 st2.
  assert (Hboth : forall ttl, b_title b = Some ttl ->
            find_task st1 id = Some (update_row b ttl 1 t) /\
            find_task st2 id = Some (update_row b ttl 0 t)).
  { intros ttl Httl.
    destruct (put_task_owned st id t (set_completed b von) ttl Hfind Httl)
      as [_ H1].
    simpl in H1. rewrite Hon in H1. fold owner in H1. fold st1 in H1.
    split; [exact H1|].
    destruct (put_task_owned st1 id _ (set_completed b voff) ttl H1 Httl)
      as [_ H2].
    simpl in H2. rewrite Hoff in H2. exact H2. }
  split; [|split].
  - destruct (b_title b) as [ttl|] eqn:Httl.
    + exists (update_row b ttl 0 t). split; [apply Hboth|]; reflexivity.
    + exists t. split; [|exact Hzero]. subst st2 st1.
      rewrite !put_task_untitled by exact Httl. exact Hfind.
  - exact Hboth.
  - intros Ht Hd Hp Hc Hdue.
    destruct (Hboth _ Ht) as [_ H2]. rewrite H2. f_equal.
    destruct t; simpl in *. subst. reflexivity.
Qed.

Lemma toggle_round_trip_witness :
  find_task
    (snd (put_task
            (snd (put_task sample_db 1 (KInt 1)
                    (set_completed (body_of ship_release)
                       (Some (JBool true)))))
            1 (KInt 1)
            (set_completed (body_of ship_release) (Some (JBool false)))))
    1 = Some ship_release.
Proof.
  destruct (toggle_round_trip sample_db 1 ship_release (body_of ship_release)
              (Some (JBool true)) (Some (JBool false))
              eq_refl eq_refl eq_refl eq_refl) as (_ & _ & H).
  apply H; reflexivity.
Defined.

(** ** Listing tasks *)

Lemma insert_desc_perm (t : task) (l : list task) :
  Permutation (insert_desc t l) (t :: l).
Proof.
  induction l as [|x l IH]; simpl; [reflexivity|].
  destruct (t_created_at x <=? t_created_at t); [reflexivity|].
  rewrite IH. apply perm_swap.
Qed.

Lemma order_by_created_desc_perm (l : list task) :
  Permutation (order_by_created_desc l) l.
Proof.
  induction l as [|t l IH]; simpl; [reflexivity|].
  rewrite insert_desc_perm. apply perm_skip, IH.
Qed.

Lemma insert_desc_sorted (t : task) (l : list task) :
  StronglySorted newer_first l -> StronglySorted newer_first (insert_desc t l).
Proof.
  induction l as [|x l IH]; intros Hs; simpl.
  - repeat constructor.
  - inversion Hs as [|x' l' Hl Hx]; subst.
    destruct (t_created_at x <=? t_created_at t) eqn:E.
    + apply Z.leb_le in E. constructor; [exact Hs|].
      constructor; [exact E|].
      rewrite Forall_forall in *. intros y Hy.
      specialize (Hx y Hy). unfold newer_first in *. lia.
    + apply Z.leb_gt in E. constructor; [apply IH, Hl|].
      rewrite Forall_forall in *. intros y Hy.
      apply (Permutation_in _ (insert_desc_perm t l)) in Hy.
      destruct Hy as [<-|Hy]; [unfold newer_first; lia|auto].
Qed.

Lemma order_by_created_desc_sorted (l : list task) :
  StronglySorted newer_first (order_by_created_desc l).
Proof.
  induction l as [|t l IH]; simpl; [constructor|].
  apply insert_desc_sorted, IH.
Qed.

Lemma get_tasks_rows (st : db) (owner : Z) :
  map tw_task (get_tasks st owner) =
  order_by_created_desc (filter (owned_by owner) (tasks st)).
Proof.
  unfold get_tasks. rewrite map_map. simpl. apply map_id.
Qed.

(** C6: ListTasks returns the owner's task rows and no other (as a
    permutation of the owner's rows of the table), every row at least as new
    as the rows after it, and each with all the subtasks of the store whose
    task_id is its id, in table order. *)
Theorem list_tasks_owned_newest_first (st : db) (owner : Z) :
  let l := get_tasks st owner in
  Permutation (map tw_task l) (filter (owned_by owner) (tasks st)) /\
  (forall t, In t (map tw_task l) <->
             In t (tasks st) /\ t_user_id t = owner) /\
  StronglySorted newer_first (map tw_task l) /\
  Forall (fun x =>
            tw_subtasks x = subtasks_of st (t_id (tw_task x)) /\
            forall s, In s (tw_subtasks x) <->
                      In s (subtasks st) /\
                      s_task_id s = KInt (t_id (tw_task x))) l.
Proof.
  intros l. subst l. rewrite get_tasks_rows.
  split; [apply order_by_created_desc_perm|].
  split; [|split; [apply order_by_created_desc_sorted|]].
  - intros t. split.
    + intros H.
      apply (Permutation_in _ (order_by_created_desc_perm _)) in H.
      apply filter_In in H as [Hin Ho]. split; [exact Hin|].
      apply Z.eqb_eq, Ho.
    + intros [Hin Ho].
      apply (Permutation_in _
               (Permutation_sym (order_by_created_desc_perm _))).
      apply filter_In. split; [exact Hin|]. apply Z.eqb_eq, Ho.
  - unfold get_tasks. apply Forall_forall. intros x Hx.
    apply in_map_iff in Hx as [t [<- _]]. simpl.
    split; [reflexivity|].
    intros s. unfold subtasks_of. rewrite filter_In.
    split; intros [Hin Hk]; (split; [exact Hin|]).
    + destruct (s_task_id s) as [z|txt]; simpl in Hk; [|discriminate].
      apply Z.eqb_eq in Hk. congruence.
    + rewrite Hk. simpl. apply Z.eqb_refl.
Qed.

Example list_tasks_sample :
  map (fun x => (t_id (tw_task x), map s_id (tw_subtasks x)))
    (get_tasks sample_db 1) = [(2, []); (1, [1; 2])].
Proof. reflexivity. Qed.

(** ** Weekly statistics *)

(** Unfolds the list functions and leaves the arithmetic alone. *)
Ltac list_step := cbn [bump map filter fold_right fst snd].

Lemma count_in_bump (d k : Z) (g : list (Z * Z)) :
  count_in (bump d g) k = count_in g k + b2z (d =? k).
Proof.
  unfold count_in, b2z.
  induction g as [|[d' c] g IH]; list_step.
  - destruct (d =? k); reflexivity.
  - destruct (d =? d') eqn:E.
    + apply Z.eqb_eq in E. subst d'. list_step.
      destruct (d =? k); list_step; lia.
    + destruct (d <? d'); list_step.
      * destruct (d =? k), (d' =? k); list_step; lia.
      * destruct (d' =? k); list_step; rewrite IH; destruct (d =? k); lia.
Qed.

Lemma count_in_group (days : list Z) (k : Z) :
  count_in (group_count days) k = occurrences k days.
Proof.
  unfold occurrences. induction days as [|d days IH]; simpl; [reflexivity|].
  rewrite count_in_bump, IH, (Z.eqb_sym d k).
  destruct (k =? d); simpl; lia.
Qed.

Lemma bump_keys (d k : Z) (g : list (Z * Z)) :
  In k (map fst (bump d g)) <-> k = d \/ In k (map fst g).
Proof.
  induction g as [|[d' c] g IH]; simpl.
  - intuition.
  - destruct (d =? d') eqn:E.
    + apply Z.eqb_eq in E. subst d'. simpl. intuition.
    + destruct (d <? d'); simpl; [intuition|].
      rewrite IH. intuition.
Qed.

Lemma group_keys (days : list Z) (k : Z) :
  In k (map fst (group_count days)) <-> In k days.
Proof.
  induction days as [|d days IH]; simpl; [reflexivity|].
  rewrite bump_keys, IH. intuition.
Qed.

Lemma bump_sorted (d : Z) (g : list (Z * Z)) :
  StronglySorted Z.lt (map fst g) ->
  StronglySorted Z.lt (map fst (bump d g)).
Proof.
  induction g as [|[d' c] g IH]; intros Hs; simpl.
  - repeat constructor.
  - simpl in Hs. inversion Hs as [|x l Hl Hx]; subst.
    destruct (d =? d') eqn:E; [exact Hs|].
    apply Z.eqb_neq in E.
    destruct (d <? d') eqn:L; simpl.
    + apply Z.ltb_lt in L. constructor; [exact Hs|].
      constructor; [exact L|].
      rewrite Forall_forall in *. intros y Hy. specialize (Hx y Hy). lia.
    + apply Z.ltb_ge in L. constructor; [apply IH, Hl|].
      rewrite Forall_forall in *. intros y Hy.
      apply bump_keys in Hy as [->|Hy]; [lia|auto].
Qed.

Lemma group_sorted (days : list Z) :
  StronglySorted Z.lt (map fst (group_count days)).
Proof.
  induction days as [|d days IH]; simpl; [constructor|].
  apply bump_sorted, IH.
Qed.

Lemma sorted_keys_nodup (l : list Z) : StronglySorted Z.lt l -> NoDup l.
Proof.
  induction 1 as [|x l Hs IH Hx]; constructor; [|exact IH].
  intros Hin. rewrite Forall_forall in Hx. specialize (Hx x Hin). lia.
Qed.

Lemma count_in_absent (g : list (Z * Z)) (k : Z) :
  ~ In k (map fst g) -> count_in g k = 0.
Proof.
  unfold count_in. induction g as [|[d c] g IH]; simpl; [reflexivity|].
  intros H. destruct (d =? k) eqn:E.
  - apply Z.eqb_eq in E. exfalso. apply H. left. exact E.
  - apply IH. intros Hin. apply H. right. exact Hin.
Qed.

Lemma count_in_entry (g : list (Z * Z)) (k c : Z) :
  NoDup (map fst g) -> In (k, c) g -> count_in g k = c.
Proof.
  induction g as [|[d c'] g IH]; simpl; intros Hnd Hin; [contradiction|].
  inversion Hnd as [|x l Hx Hl]; subst.
  destruct Hin as [Heq|Hin].
  - inversion Heq; subst. unfold count_in. simpl. rewrite Z.eqb_refl. simpl.
    fold (count_in g k). rewrite count_in_absent by exact Hx. lia.
  - unfold count_in. simpl. destruct (d =? k) eqn:E.
    + apply Z.eqb_eq in E. subst d. exfalso. apply Hx.
      apply (in_map fst) in Hin. exact Hin.
    + apply IH; assumption.
Qed.

Lemma bump_total (d : Z) (g : list (Z * Z)) :
  fold_right Z.add 0 (map snd (bump d g)) =
  fold_right Z.add 0 (map snd g) + 1.
Proof.
  induction g as [|[d' c] g IH]; list_step; [reflexivity|].
  destruct (d =? d'); list_step; [lia|].
  destruct (d <? d'); list_step; [lia|]. rewrite IH. lia.
Qed.

Lemma group_total (days : list Z) :
  fold_right Z.add 0 (map snd (group_count days)) =
  Z.of_nat (List.length days).
Proof.
  induction days as [|d days IH]; [reflexivity|].
  cbn [group_count List.length]. rewrite bump_total, IH. lia.
Qed.

(** A day inside the window keeps all of the owner's tasks of that day. *)
Lemma occurrences_in_week (st : db) (now owner d : Z) :
  date_of now - 7 <= d ->
  occurrences d
    (map (fun t => date_of (t_created_at t))
       (filter (fun t => owned_by owner t && in_week now t) (tasks st))) =
  Z.of_nat (List.length (created_on st owner d)).
Proof.
  intros Hd. unfold occurrences, created_on. f_equal.
  induction (tasks st) as [|t l IH]; simpl; [reflexivity|].
  destruct (owned_by owner t); simpl; [|exact IH].
  unfold in_week at 1.
  destruct (date_of (t_created_at t) =? d) eqn:E.
  - apply Z.eqb_eq in E.
    replace (date_of now - 7 <=? date_of (t_created_at t)) with true
      by (symmetry; apply Z.leb_le; lia).
    simpl. rewrite (Z.eqb_sym d), (proj2 (Z.eqb_eq _ _) E). simpl.
    f_equal. exact IH.
  - destruct (date_of now - 7 <=? date_of (t_created_at t)); simpl;
      [|exact IH].
    rewrite (Z.eqb_sym d), E. exact IH.
Qed.

(** The weekly part by day numbers: one entry per day and no day twice; a
    listed day is not earlier than the day seven days before today and its
    count is the number of the owner's tasks of that day; every task of the
    owner from such a day falls on a listed day; the counts add up to the
    number of rows selected. *)
Lemma weekly_by_day (st : db) (now owner : Z) :
  let w := weekly (get_stats st now owner) in
  NoDup (map fst w) /\
  (forall d c, In (d, c) w ->
     date_of now - 7 <= d /\
     1 <= c /\
     c = Z.of_nat (List.length (created_on st owner d))) /\
  (forall t, In t (tasks st) -> t_user_id t = owner ->
     date_of now - 7 <= date_of (t_created_at t) ->
     In (date_of (t_created_at t)) (map fst w)) /\
  fold_right Z.add 0 (map snd w) =
    Z.of_nat (List.length
                (filter (fun t => owned_by owner t && in_week now t)
                   (tasks st))).
Proof.
  intros w. subst w. simpl.
  set (rows := filter (fun t => owned_by owner t && in_week now t) (tasks st)).
  set (days := map (fun t => date_of (t_created_at t)) rows).
  assert (Hnd : NoDup (map fst (group_count days)))
    by apply sorted_keys_nodup, group_sorted.
  assert (Hwin : forall d, In d days -> date_of now - 7 <= d).
  { intros d Hd. apply in_map_iff in Hd as [t [<- Ht]].
    apply filter_In in Ht as [_ Ht]. apply andb_true_iff in Ht as [_ Ht].
    apply Z.leb_le in Ht. exact Ht. }
  split; [exact Hnd|]. split; [|split].
  - intros d c Hin.
    assert (Hkey : In d days)
      by (apply group_keys; apply (in_map fst) in Hin; exact Hin).
    pose proof (count_in_entry _ _ _ Hnd Hin) as Hc.
    rewrite count_in_group in Hc.
    pose proof (Hwin d Hkey) as Hd.
    split; [exact Hd|]. split.
    + rewrite <- Hc. unfold occurrences.
      assert (In d (filter (Z.eqb d) days))
        by (apply filter_In; split; [exact Hkey|apply Z.eqb_refl]).
      destruct (filter (Z.eqb d) days); [contradiction|simpl; lia].
    + rewrite <- Hc. apply occurrences_in_week, Hd.
  - intros t Hin Ho Hd. apply group_keys.
    apply in_map_iff. exists t. split; [reflexivity|].
    apply filter_In. split; [exact Hin|].
    apply andb_true_iff. split; [apply Z.eqb_eq, Ho|apply Z.leb_le, Hd].
  - rewrite group_total. unfold days. rewrite length_map. reflexivity.
Qed.

(** Days and seconds: a timestamp falls on day [d] when it lies in the 86400
    seconds from [86400 * d] on. *)
Lemma day_from (a c : Z) : a <= c / 86400 <-> 86400 * a <= c.
Proof.
  pose proof (Z.div_mod c 86400 ltac:(lia)).
  pose proof (Z.mod_pos_bound c 86400 ltac:(lia)). lia.
Qed.

Lemma day_is (c d : Z) :
  (c / 86400 =? d) = (86400 * d <=? c) && (c <? 86400 * (d + 1)).
Proof.
  pose proof (Z.div_mod c 86400 ltac:(lia)).
  pose proof (Z.mod_pos_bound c 86400 ltac:(lia)).
  destruct (c / 86400 =? d) eqn:E; symmetry.
  - apply Z.eqb_eq in E. apply andb_true_iff.
    split; [apply Z.leb_le|apply Z.ltb_lt]; lia.
  - apply Z.eqb_neq in E. apply andb_false_iff.
    destruct (Z.le_gt_cases (86400 * d) c);
      [right; apply Z.ltb_ge|left; apply Z.leb_gt]; lia.
Qed.

Lemma week_opens (now : Z) :
  now - now mod 86400 - 7 * 86400 = 86400 * (now / 86400 - 7).
Proof. pose proof (Z.div_mod now 86400 ltac:(lia)). lia. Qed.

Lemma in_week_since (now : Z) (t : task) :
  in_week now t = (now - now mod 86400 - 7 * 86400 <=? t_created_at t).
Proof.
  unfold in_week, date_of, seconds_per_day. rewrite week_opens.
  destruct (86400 * (now / 86400 - 7) <=? t_created_at t) eqn:E.
  - apply Z.leb_le. apply day_from. apply Z.leb_le, E.
  - apply Z.leb_gt. apply Z.leb_gt in E.
    destruct (Z.le_gt_cases (now / 86400 - 7) (t_created_at t / 86400))
      as [H|H]; [apply day_from in H|]; lia.
Qed.

(** C5, as stated, at a task older than seven days: with a task for each of
    the days 0 to 7 and the request late on day 7, the task created at time
    0 is more than seven days old and is counted, and eight days come
    back. *)
Lemma weekly_counts_an_older_task :
  In (task_at 1 0) (tasks week_db) /\
  t_created_at (task_at 1 0) < 691199 - 7 * 86400 /\
  In (0, 1) (weekly (get_stats week_db 691199 1)) /\
  List.length (weekly (get_stats week_db 691199 1)) = 8%nat.
Proof.
  split; [left; reflexivity|]. split; [reflexivity|].
  split; [left; reflexivity|reflexivity].
Qed.

(** C5, as the code has it, in seconds.  The window opens at midnight (UTC)
    of the day seven days before the day of the request, at
    [now - now mod 86400 - 7 * 86400].  The weekly part of ComputeStats has
    one entry per day and no day twice; the day [d] of an entry begins at or
    after the opening and its count is the number of all the owner's tasks
    created in the 86400 seconds from [86400 * d] on, at least one; a task
    of the owner is on a listed day exactly when it was created at or after
    the opening; the counts add up to the number of the owner's tasks
    created at or after the opening.  So a task of the last seven times
    86400 seconds is always counted, a counted task that is not from the
    future is less than eight days old, and nothing older than the opening
    is counted. *)
Theorem weekly_counts_since_midnight (st : db) (now owner : Z) :
  let w := weekly (get_stats st now owner) in
  let opening := now - now mod 86400 - 7 * 86400 in
  NoDup (map fst w) /\
  (forall d c, In (d, c) w ->
     opening <= 86400 * d /\
     1 <= c /\
     c = Z.of_nat
           (List.length
              (filter (fun t => owned_by owner t &&
                                ((86400 * d <=? t_created_at t) &&
                                 (t_created_at t <? 86400 * (d + 1))))
                 (tasks st)))) /\
  (forall t, In t (tasks st) -> t_user_id t = owner ->
     (In (t_created_at t / 86400) (map fst w) <->
      opening <= t_created_at t) /\
     (now - t_created_at t <= 7 * 86400 ->
      In (t_created_at t / 86400) (map fst w)) /\
     (In (t_created_at t / 86400) (map fst w) ->
      now - t_created_at t < 8 * 86400)) /\
  fold_right Z.add 0 (map snd w) =
    Z.of_nat
      (List.length
         (filter (fun t => owned_by owner t && (opening <=? t_created_at t))
            (tasks st))).
Proof.
  intros w opening.
  destruct (weekly_by_day st now owner) as (Hnd & Hentry & Hcover & Hsum).
  fold w in Hnd, Hentry, Hcover, Hsum.
  assert (Hopen : opening = 86400 * (now / 86400 - 7)) by apply week_opens.
  assert (Hlisted : forall t, In t (tasks st) -> t_user_id t = owner ->
            (In (t_created_at t / 86400) (map fst w) <->
             opening <= t_created_at t)).
  { intros t Hin Ho. split.
    - intros Hk. apply in_map_iff in Hk as [[d c] [Hd Hdc]]. simpl in Hd.
      destruct (Hentry d c Hdc) as (Hwin & _).
      unfold date_of, seconds_per_day in Hwin. rewrite Hopen.
      apply day_from. rewrite Hd in Hwin. exact Hwin.
    - intros Hop. apply (Hcover t Hin Ho).
      unfold date_of, seconds_per_day. apply day_from.
      rewrite <- Hopen. exact Hop. }
  split; [exact Hnd|]. split; [|split].
  - intros d c Hdc. destruct (Hentry d c Hdc) as (Hwin & Hpos & Hc).
    split; [|split; [exact Hpos|]].
    + unfold date_of, seconds_per_day in Hwin. rewrite Hopen. lia.
    + rewrite Hc. unfold created_on. do 2 f_equal.
      apply filter_ext. intros t. f_equal.
      unfold date_of, seconds_per_day. apply day_is.
  - intros t Hin Ho. split; [exact (Hlisted t Hin Ho)|]. split.
    + intros Hage. apply (Hlisted t Hin Ho).
      pose proof (Z.mod_pos_bound now 86400 ltac:(lia)).
      unfold opening. lia.
    + intros Hk. apply (Hlisted t Hin Ho) in Hk.
      pose proof (Z.mod_pos_bound now 86400 ltac:(lia)).
      unfold opening in Hk. lia.
  - rewrite Hsum. do 2 f_equal. apply filter_ext. intros t. f_equal.
    apply in_week_since.
Qed.

Example weekly_sample :
  weekly (get_stats sample_db 1200000 1) = [(11, 1); (12, 1)] /\
  weekly (get_stats sample_db (1200000 + 6 * 86400) 1) = [(12, 1)] /\
  weekly (get_stats sample_db (1200000 + 7 * 86400) 1) = [].
Proof. repeat split; reflexivity. Qed.

(** ** Totals *)

Lemma sum_of_tests {A : Type} (p : A -> bool) (l : list A) :
  fold_right Z.add 0 (map (fun x => b2z (p x)) l) =
  Z.of_nat (List.length (filter p l)).
Proof.
  induction l as [|a l IH]; [reflexivity|].
  cbn [map fold_right filter]. rewrite IH.
  destruct (p a); cbn [b2z List.length]; lia.
Qed.

Lemma sql_sum_some (l : list Z) :
  l <> [] -> sql_sum l = Some (fold_right Z.add 0 l).
Proof. destruct l; [congruence|reflexivity]. Qed.

Lemma pending_high_test (t : task) :
  flag (t_completed t) ->
  is_high t && (t_completed t =? 0) = negb (is_completed t) && is_high t.
Proof.
  unfold is_completed. intros [H|H]; rewrite H; simpl;
    destruct (is_high t); reflexivity.
Qed.

(** C4, on an empty task list: the two sums are NULL, not 0. *)
Lemma stats_of_nobody_are_null :
  tasks_of open_db 1 = [] /\
  ~ (total (get_stats open_db 0 1) = 0 /\
     completed (get_stats open_db 0 1) = Some 0 /\
     high_priority_pending (get_stats open_db 0 1) = Some 0).
Proof. split; [reflexivity|]. intros (_ & H & _). discriminate H. Qed.

(** C4, as the code has it: with N tasks of the owner, K of them completed
    and H of the others of high priority, ComputeStats returns total = N
    and, when N is at least 1, completed = K and high_priority_pending = H;
    when the owner has no task it returns total = 0 and NULL for both
    completed and high_priority_pending. *)
Theorem stats_totals (st : db) (now owner : Z) :
  flags_ok st ->
  let s := get_stats st now owner in
  total s = Z.of_nat (List.length (tasks_of st owner)) /\
  (tasks_of st owner <> [] ->
     completed s = Some (Z.of_nat (List.length (completed_of st owner))) /\
     high_priority_pending s =
       Some (Z.of_nat (List.length (high_pending_of st owner)))) /\
  (tasks_of st owner = [] ->
     total s = 0 /\ completed s = None /\ high_priority_pending s = None).
Proof.
  intros [Hflags _] s. subst s. unfold get_stats. simpl.
  fold (tasks_of st owner).
  split; [reflexivity|]. split.
  - intros Hne.
    rewrite !sql_sum_some
      by (destruct (tasks_of st owner); [congruence|discriminate]).
    rewrite !sum_of_tests. split; [reflexivity|].
    unfold high_pending_of. do 3 f_equal.
    apply filter_ext_in. intros t Ht. apply pending_high_test.
    apply filter_In in Ht as [Ht _].
    rewrite Forall_forall in Hflags. apply Hflags, Ht.
  - intros ->. repeat split.
Qed.

Lemma stats_totals_witness :
  total (get_stats sample_db 1200000 1) = 2 /\
  completed (get_stats sample_db 1200000 1) = Some 1 /\
  high_priority_pending (get_stats sample_db 1200000 1) = Some 1.
Proof.
  destruct (stats_totals sample_db 1200000 1 sample_flags_ok)
    as (Ht & Hsome & _).
  split; [exact Ht|]. apply Hsome. discriminate.
Defined.

(** ** Creating a task *)

Lemma max_rowid_bound (ids : list Z) (x : Z) :
  In x ids -> x <= max_rowid ids.
Proof.
  induction ids as [|a ids IH]; simpl; [contradiction|].
  intros [->|H]; [lia|]. specialize (IH H). lia.
Qed.

Lemma next_rowid_fresh (seq : Z) (ids : list Z) :
  ~ In (next_rowid seq ids) ids.
Proof.
  intros H. apply max_rowid_bound in H. unfold next_rowid in H. lia.
Qed.

(** C2, on an empty and on an absent title: the empty title is stored and
    answered with 200; the absent title is answered with 500. *)
Lemma empty_title_is_stored :
  user_exists sample_db 1 = true /\
  status_code (fst (post_task sample_db 1200000 1 (title_only (Some ""))))
    <> 400 /\
  map t_title
    (tasks (snd (post_task sample_db 1200000 1 (title_only (Some ""))))) =
    ["Ship release"; "Write notes"; "Water plants"; ""] /\
  status_code (fst (post_task sample_db 1200000 1 (title_only None))) = 500.
Proof. repeat split. discriminate. Qed.

(** C2, as the code has it: for an owner that is a row of [users], CreateTask
    without a title is refused by the NOT NULL constraint, which the route
    does not catch (status 500), and stores nothing; with a title, empty or
    not, it appends one task row with a fresh id assigned by the store, the
    owner, completed = 0 and created_at = now, the priority and the category
    defaulting to medium and General, and answers the id and the title with
    completed = 0 and no subtasks. *)
Theorem create_task_outcomes (st : db) (now owner : Z) (b : task_body) :
  user_exists st owner = true ->
  let r := post_task st now owner b in
  let id := next_rowid (tasks_seq st) (map t_id (tasks st)) in
  (b_title b = None ->
     r = (Uncaught (NotNullFailed "tasks.title"), st) /\
     status_code (fst r) = 500) /\
  (forall ttl, b_title b = Some ttl ->
     fst r = Json {| ct_id := id; ct_title := Some ttl; ct_completed := 0;
                     ct_subtasks := [] |} /\
     tasks (snd r) =
       tasks st ++
       [ {| t_id := id; t_user_id := owner; t_title := ttl;
            t_description := b_description b;
            t_priority := Some (or_else (b_priority b) "medium");
            t_category := Some (or_else (b_category b) "General");
            t_due_date := b_due_date b;
            t_completed := 0; t_created_at := now |} ] /\
     ~ In id (map t_id (tasks st)) /\
     users (snd r) = users st /\
     subtasks (snd r) = subtasks st).
Proof.
  intros Hu r id. subst r id. unfold post_task, insert_task. split.
  - intros ->. split; reflexivity.
  - intros ttl ->. rewrite Hu, andb_false_r. simpl.
    repeat split. apply next_rowid_fresh.
Qed.

Lemma create_task_outcomes_witness :
  fst (post_task sample_db 1200000 1 (title_only (Some "Plan sprint"))) =
    Json {| ct_id := 4; ct_title := Some "Plan sprint"; ct_completed := 0;
            ct_subtasks := [] |}.
Proof.
  destruct (create_task_outcomes sample_db 1200000 1
              (title_only (Some "Plan sprint")) eq_refl) as [_ H].
  destruct (H "Plan sprint" eq_refl) as [Hr _]. exact Hr.
Defined.

(** ** Creating a subtask *)

(** C10, on a task id that no row has: the insert is refused by the foreign
    key, nothing is stored and the answer is not a success. *)
Lemma orphan_subtask_is_refused :
  task_exists sample_db (KInt 99) = false /\
  post_subtask sample_db (KInt 99) (Some "orphan") =
    (Uncaught ForeignKeyFailed, sample_db) /\
  status_code (fst (post_subtask sample_db (KInt 99) (Some "orphan")))
    <> 200.
Proof. repeat split. discriminate. Qed.

(** C10, as the code has it: on a connection that enforces foreign keys,
    CreateSubtask with a title succeeds for every caller exactly when some
    task row, of whatever owner, has the given id, and then appends one
    subtask row with a fresh id, that task_id and completed = 0; when no task
    row has the id, the foreign key refuses the insert, the route answers 500
    and the database is unchanged. *)
Theorem create_subtask_outcomes (st : db) (taskId : key) (ttl : string) :
  foreign_keys st = true ->
  let r := post_subtask st taskId (Some ttl) in
  let id := next_rowid (subtasks_seq st) (map s_id (subtasks st)) in
  (task_exists st taskId = true ->
     fst r = Json {| cs_id := id; cs_title := Some ttl; cs_completed := 0 |} /\
     subtasks (snd r) =
       subtasks st ++
       [ {| s_id := id; s_task_id := taskId; s_title := ttl;
            s_completed := 0 |} ] /\
     ~ In id (map s_id (subtasks st)) /\
     tasks (snd r) = tasks st) /\
  (task_exists st taskId = false ->
     r = (Uncaught ForeignKeyFailed, st) /\ status_code (fst r) = 500).
Proof.
  intros Hfk r id. subst r id. unfold post_subtask, insert_subtask.
  rewrite Hfk. split; intros ->; simpl.
  - repeat split. apply next_rowid_fresh.
  - split; reflexivity.
Qed.

Lemma create_subtask_outcomes_witness :
  fst (post_subtask sample_db (KInt 3) (Some "buy soil")) =
    Json {| cs_id := 4; cs_title := Some "buy soil"; cs_completed := 0 |}.
Proof.
  destruct (create_subtask_outcomes sample_db (KInt 3) "buy soil" eq_refl)
    as [H _].
  destruct (H eq_refl) as [Hr _]. exact Hr.
Defined.

(** ** The foreign-key setting *)

(** No request changes the connection's foreign-key setting. *)
Lemma serve_keeps_foreign_keys (st : db) (now : Z) (r : request) :
  foreign_keys (serve st now r) = foreign_keys st.
Proof.
  destruct r; simpl; try reflexivity.
  - apply register_keeps_tasks.
  - unfold post_task, insert_task. destruct (b_title b); [|reflexivity].
    destruct (foreign_keys st && negb (user_exists st owner)); reflexivity.
  - unfold put_task, update_task. destruct (owns st owner id); [|reflexivity].
    destruct (b_title b); reflexivity.
  - unfold post_subtask, insert_subtask. destruct title; [|reflexivity].
    destruct (foreign_keys st && negb (task_exists st taskId)); reflexivity.
Qed.

(** The cascade of a delete and the refusal of an orphan subtask are one
    mechanism: a connection without foreign-key enforcement stores the orphan
    and keeps the subtasks of a deleted task. *)
Lemma without_enforcement (st : db) (owner : Z) (k : key) (ttl : string) :
  foreign_keys st = false ->
  status_code (fst (post_subtask st k (Some ttl))) = 200 /\
  subtasks (snd (delete_task st owner k)) = subtasks st.
Proof.
  intros Hfk. unfold post_subtask, insert_subtask, delete_task. simpl.
  rewrite Hfk. split; reflexivity.
Qed.

(** * Further properties of the routes *)

(** ** Keys stay unique *)

Lemma NoDup_snoc {A : Type} (l : list A) (x : A) :
  NoDup l -> ~ In x l -> NoDup (l ++ [x]).
Proof.
  intros Hl Hx. induction Hl as [|a l Ha Hl IH]; simpl.
  - constructor; [intros []|constructor].
  - constructor.
    + intros Hin. apply in_app_or in Hin as [Hin|[->|[]]].
      * exact (Ha Hin).
      * apply Hx. left. reflexivity.
    + apply IH. intros Hin. apply Hx. right. exact Hin.
Qed.

Lemma unique_keys_filter {Row Key : Type} (keep : Row -> bool)
  (key : Row -> Key) (rows : list Row) (Hnd : NoDup (map key rows)) :
  NoDup (map key (filter keep rows)).
Proof.
  revert Hnd. induction rows as [|a l IH]; simpl; intros H; [constructor|].
  inversion H as [|x xs Hx Hl]; subst.
  destruct (keep a); simpl; [|exact (IH Hl)].
  constructor; [|exact (IH Hl)].
  intros Hin. apply Hx. apply in_map_iff in Hin as [y [Hy Hin]].
  apply filter_In in Hin as [Hin _]. rewrite <- Hy. apply in_map, Hin.
Qed.

Lemma email_free (st : db) (e : string) :
  email_taken st e = false -> ~ In e (map u_email (users st)).
Proof.
  intros H Hin. unfold email_taken in H. rewrite existsb_false_iff in H.
  apply in_map_iff in Hin as [u [<- Hu]].
  specialize (H u Hu). rewrite String.eqb_refl in H. discriminate.
Qed.

Lemma update_keeps_ids (k : key) (owner : Z) (f : task -> task)
  (l : list task) :
  (forall t, t_id (f t) = t_id t) ->
  map t_id (map (fun t => if selects k owner t then f t else t) l) =
  map t_id l.
Proof.
  intros Hf. rewrite map_map. apply map_ext. intros t.
  destruct (selects k owner t); [apply Hf|reflexivity].
Qed.

(** What each request does to the three tables, case by case. *)
Lemma register_outcome (st : db) (e p n : option string) (h : string) :
  snd (register st e p n h) = st \/
  exists email,
    e = Some email /\ email_taken st email = false /\
    snd (register st e p n h) =
      with_users st
        (users st ++
         [ {| u_id := next_rowid (users_seq st) (map u_id (users st));
              u_email := email; u_password := h;
              u_name := or_else n (before_at email);
              u_avatar_url := None |} ])
        (next_rowid (users_seq st) (map u_id (users st))).
Proof.
  unfold register.
  destruct (negb (str_truthy e) || negb (str_truthy p)); [left; reflexivity|].
  destruct e as [email|]; [|left; reflexivity].
  unfold insert_user. destruct (email_taken st email) eqn:E.
  - left. reflexivity.
  - right. exists email. repeat split. exact E.
Qed.

Lemma post_task_outcome (st : db) (now owner : Z) (b : task_body) :
  snd (post_task st now owner b) = st \/
  exists ttl,
    b_title b = Some ttl /\
    (foreign_keys st = true -> user_exists st owner = true) /\
    snd (post_task st now owner b) =
      with_tasks st
        (tasks st ++
         [ {| t_id := next_rowid (tasks_seq st) (map t_id (tasks st));
              t_user_id := owner; t_title := ttl;
              t_description := b_description b;
              t_priority := Some (or_else (b_priority b) "medium");
              t_category := Some (or_else (b_category b) "General");
              t_due_date := b_due_date b;
              t_completed := 0; t_created_at := now |} ])
        (next_rowid (tasks_seq st) (map t_id (tasks st))).
Proof.
  unfold post_task, insert_task.
  destruct (b_title b) as [ttl|]; [|left; reflexivity].
  destruct (foreign_keys st) eqn:Hfk; simpl.
  - destruct (user_exists st owner) eqn:Hu; simpl; [|left; reflexivity].
    right. exists ttl. repeat split.
  - right. exists ttl. repeat split. discriminate.
Qed.

Lemma put_task_outcome (st : db) (owner : Z) (id : key) (b : task_body) :
  snd (put_task st owner id b) = st \/
  exists ttl,
    b_title b = Some ttl /\
    snd (put_task st owner id b) =
      with_tasks st
        (map (fun t => if selects id owner t
                       then update_row b ttl (b2z (truthy (b_completed b))) t
                       else t) (tasks st))
        (tasks_seq st).
Proof.
  unfold put_task, update_task.
  destruct (owns st owner id); [|left; reflexivity].
  destruct (b_title b) as [ttl|]; [|left; reflexivity].
  right. exists ttl. split; reflexivity.
Qed.

Lemma post_subtask_outcome (st : db) (k : key) (title : option string) :
  snd (post_subtask st k title) = st \/
  exists ttl,
    title = Some ttl /\
    (foreign_keys st = true -> task_exists st k = true) /\
    snd (post_subtask st k title) =
      with_subtasks st
        (subtasks st ++
         [ {| s_id := next_rowid (subtasks_seq st) (map s_id (subtasks st));
              s_task_id := k; s_title := ttl; s_completed := 0 |} ])
        (next_rowid (subtasks_seq st) (map s_id (subtasks st))).
Proof.
  unfold post_subtask, insert_subtask.
  destruct title as [ttl|]; [|left; reflexivity].
  destruct (foreign_keys st) eqn:Hfk; simpl.
  - destruct (task_exists st k) eqn:Hu; simpl; [|left; reflexivity].
    right. exists ttl. repeat split.
  - right. exists ttl. repeat split. discriminate.
Qed.

Lemma put_subtask_ids (st : db) (id : key) (c : option json) :
  map s_id (subtasks (snd (put_subtask st id c))) = map s_id (subtasks st).
Proof.
  simpl. rewrite map_map. apply map_ext. intros s.
  destruct (key_is id (s_id s)); reflexivity.
Qed.

(** X1: every request keeps the primary keys of the three tables and the
    emails of the users free of duplicates. *)
Theorem keys_stay_unique (st : db) (now : Z) (r : request) :
  keys_ok st -> keys_ok (serve st now r).
Proof.
  intros (Hu & He & Ht & Hs). destruct r; simpl.
  - destruct (register_outcome st email password name hashed)
      as [->|(e & _ & Hfree & ->)]; [repeat split; assumption|].
    unfold keys_ok; simpl. rewrite !map_app. simpl.
    repeat split; try assumption.
    + apply NoDup_snoc; [exact Hu|apply next_rowid_fresh].
    + apply NoDup_snoc; [exact He|apply email_free, Hfree].
  - repeat split; assumption.
  - repeat split; assumption.
  - destruct (post_task_outcome st now owner b) as [->|(ttl & _ & _ & ->)];
      [repeat split; assumption|].
    unfold keys_ok; simpl. rewrite map_app. simpl.
    repeat split; try assumption.
    apply NoDup_snoc; [exact Ht|apply next_rowid_fresh].
  - destruct (put_task_outcome st owner id b) as [->|(ttl & _ & ->)];
      [repeat split; assumption|].
    unfold keys_ok; simpl.
    rewrite update_keeps_ids by reflexivity. repeat split; assumption.
  - unfold keys_ok; simpl. repeat split; try assumption.
    + apply unique_keys_filter, Ht.
    + destruct (foreign_keys st); [apply unique_keys_filter|]; exact Hs.
  - destruct (post_subtask_outcome st taskId title)
      as [->|(ttl & _ & _ & ->)]; [repeat split; assumption|].
    unfold keys_ok; simpl. rewrite map_app. simpl.
    repeat split; try assumption.
    apply NoDup_snoc; [exact Hs|apply next_rowid_fresh].
  - pose proof (put_subtask_ids st id c) as E. simpl in E.
    unfold keys_ok; simpl. rewrite E. repeat split; assumption.
Qed.

Lemma sample_keys_ok : keys_ok sample_db.
Proof.
  unfold keys_ok; simpl.
  repeat split; repeat constructor; simpl; intuition discriminate.
Qed.

Lemma keys_stay_unique_witness :
  keys_ok (serve sample_db 1200000
             (PostTask 1 (title_only (Some "Plan sprint")))).
Proof. apply keys_stay_unique. exact sample_keys_ok. Defined.

(** ** Referential integrity *)

Lemma existsb_snoc {A : Type} (p : A -> bool) (l : list A) (x : A) :
  existsb p l = true -> existsb p (l ++ [x]) = true.
Proof. intros H. rewrite existsb_app, H. reflexivity. Qed.

Lemma task_exists_updated (st : db) (k k' : key) (owner : Z)
  (f : task -> task) (seq : Z) :
  (forall t, t_id (f t) = t_id t) ->
  task_exists
    (with_tasks st
       (map (fun t => if selects k owner t then f t else t) (tasks st)) seq)
    k' = task_exists st k'.
Proof.
  intros Hf. unfold task_exists; simpl.
  induction (tasks st) as [|t l IH]; simpl; [reflexivity|].
  rewrite IH. f_equal.
  destruct (selects k owner t); [rewrite Hf|]; reflexivity.
Qed.

(** A delete leaves no subtask without its task. *)
Lemma delete_keeps_refs (st : db) (k : key) (owner : Z) :
  refs_ok st -> refs_ok (delete_task_rows st k owner).
Proof.
  intros (Hfk & Ht & Hs). unfold refs_ok, delete_task_rows; simpl.
  rewrite Hfk. split; [reflexivity|]. split.
  - apply Forall_filter_keep. exact Ht.
  - rewrite Forall_forall in *. intros s Hin.
    apply filter_In in Hin as [Hin Hkept].
    apply negb_true_iff in Hkept. rewrite existsb_false_iff in Hkept.
    specialize (Hs s Hin). unfold task_exists in *; simpl.
    apply existsb_exists in Hs as [t [Hin_t Hk]].
    apply existsb_exists. exists t. split; [|exact Hk].
    apply filter_In. split; [exact Hin_t|].
    destruct (selects k owner t) eqn:Hsel; [|reflexivity].
    rewrite (Hkept (t_id t)) in Hk; [discriminate|].
    apply in_map, filter_In. split; assumption.
Qed.

(** X2: on a connection that enforces foreign keys, every request keeps
    the references whole: each task belongs to a user row and each subtask
    to a task row, also after a delete. *)
Theorem references_stay_whole (st : db) (now : Z) (r : request) :
  refs_ok st -> refs_ok (serve st now r).
Proof.
  intros H. pose proof H as (Hfk & Ht & Hs). destruct r; simpl; try exact H.
  - destruct (register_outcome st email password name hashed)
      as [->|(e & _ & _ & ->)]; [exact H|].
    unfold refs_ok; simpl. split; [exact Hfk|]. split; [|exact Hs].
    eapply Forall_impl; [|exact Ht]. intros t Hu.
    apply existsb_snoc. exact Hu.
  - destruct (post_task_outcome st now owner b) as [->|(ttl & _ & Hu & ->)];
      [exact H|].
    unfold refs_ok; simpl. split; [exact Hfk|]. split.
    + apply Forall_snoc; [exact Ht|]. simpl. exact (Hu Hfk).
    + eapply Forall_impl; [|exact Hs]. intros s Hx.
      apply existsb_snoc. exact Hx.
  - destruct (put_task_outcome st owner id b) as [->|(ttl & _ & ->)];
      [exact H|].
    split; [exact Hfk|]. split.
    + simpl. rewrite Forall_forall in *. intros t Hin.
      apply in_map_iff in Hin as [t0 [<- Hin0]].
      specialize (Ht t0 Hin0).
      destruct (selects id owner t0); exact Ht.
    + simpl. rewrite Forall_forall in *. intros s Hin.
      rewrite task_exists_updated by reflexivity. exact (Hs s Hin).
  - apply delete_keeps_refs. exact H.
  - destruct (post_subtask_outcome st taskId title)
      as [->|(ttl & _ & Hx & ->)]; [exact H|].
    unfold refs_ok; simpl. split; [exact Hfk|]. split; [exact Ht|].
    apply Forall_snoc; [exact Hs|]. simpl. exact (Hx Hfk).
  - unfold refs_ok; simpl. split; [exact Hfk|]. split; [exact Ht|].
    rewrite Forall_forall in *. intros s Hin.
    apply in_map_iff in Hin as [s0 [<- Hin0]].
    specialize (Hs s0 Hin0).
    destruct (key_is id (s_id s0)); exact Hs.
Qed.

Lemma sample_refs_ok : refs_ok sample_db.
Proof. split; [reflexivity|]. split; repeat constructor. Qed.

Lemma references_stay_whole_witness :
  refs_ok (serve sample_db 1200000 (DeleteTask 1 (KInt 1))).
Proof. apply references_stay_whole. exact sample_refs_ok. Defined.

(** ** Row ids are never used again *)

Lemma next_rowid_above (seq : Z) (ids : list Z) : seq < next_rowid seq ids.
Proof. unfold next_rowid. lia. Qed.

Lemma Forall_le_trans {A : Type} (f : A -> Z) (a b : Z) (l : list A) :
  a <= b -> Forall (fun x => f x <= a) l -> Forall (fun x => f x <= b) l.
Proof.
  intros Hab H. eapply Forall_impl; [|exact H]. simpl. intros x Hx. lia.
Qed.

(** The counters of AUTOINCREMENT bound the row ids and never go down. *)
Lemma serve_keeps_seqs (st : db) (now : Z) (r : request) :
  seqs_ok st ->
  seqs_ok (serve st now r) /\
  users_seq st <= users_seq (serve st now r) /\
  tasks_seq st <= tasks_seq (serve st now r) /\
  subtasks_seq st <= subtasks_seq (serve st now r).
Proof.
  intros H. pose proof H as (Hu & Ht & Hs).
  destruct r; simpl; try (repeat split; (assumption || lia)).
  - destruct (register_outcome st email password name hashed)
      as [->|(e & _ & _ & ->)]; [repeat split; (assumption || lia)|].
    pose proof (next_rowid_above (users_seq st) (map u_id (users st))).
    unfold seqs_ok; simpl. repeat split; try assumption; try lia.
    apply Forall_snoc; [|simpl; lia].
    apply (Forall_le_trans u_id (users_seq st)); [lia|exact Hu].
  - destruct (post_task_outcome st now owner b) as [->|(ttl & _ & _ & ->)];
      [repeat split; (assumption || lia)|].
    pose proof (next_rowid_above (tasks_seq st) (map t_id (tasks st))).
    unfold seqs_ok; simpl. repeat split; try assumption; try lia.
    apply Forall_snoc; [|simpl; lia].
    apply (Forall_le_trans t_id (tasks_seq st)); [lia|exact Ht].
  - destruct (put_task_outcome st owner id b) as [->|(ttl & _ & ->)];
      [repeat split; (assumption || lia)|].
    unfold seqs_ok; simpl. repeat split; try assumption; try lia.
    rewrite Forall_forall in *. intros t Hin.
    apply in_map_iff in Hin as [t0 [<- Hin0]]. specialize (Ht t0 Hin0).
    destruct (selects id owner t0); exact Ht.
  - unfold seqs_ok; simpl. repeat split; try assumption; try lia.
    + apply Forall_filter_keep, Ht.
    + destruct (foreign_keys st); [apply Forall_filter_keep|]; exact Hs.
  - destruct (post_subtask_outcome st taskId title)
      as [->|(ttl & _ & _ & ->)]; [repeat split; (assumption || lia)|].
    pose proof (next_rowid_above (subtasks_seq st) (map s_id (subtasks st))).
    unfold seqs_ok; simpl. repeat split; try assumption; try lia.
    apply Forall_snoc; [|simpl; lia].
    apply (Forall_le_trans s_id (subtasks_seq st)); [lia|exact Hs].
  - unfold seqs_ok; simpl. repeat split; try assumption; try lia.
    rewrite Forall_forall in *. intros s Hin.
    apply in_map_iff in Hin as [s0 [<- Hin0]]. specialize (Hs s0 Hin0).
    destruct (key_is id (s_id s0)); exact Hs.
Qed.

Lemma run_keeps_seqs (rs : list (Z * request)) (st : db) :
  seqs_ok st ->
  seqs_ok (run st rs) /\
  users_seq st <= users_seq (run st rs) /\
  tasks_seq st <= tasks_seq (run st rs) /\
  subtasks_seq st <= subtasks_seq (run st rs).
Proof.
  revert st. induction rs as [|[now r] rs IH]; intros st H; simpl.
  - split; [exact H|lia].
  - destruct (serve_keeps_seqs st now r H) as (H1 & Hu & Ht & Hs).
    destruct (IH _ H1) as (H2 & Hu' & Ht' & Hs').
    split; [exact H2|lia].
Qed.

(** X3: the id that CreateTask assigns is larger than the id of every task
    the table held at any earlier time, whatever requests came in between:
    the id of a deleted task is not given out again. *)
Theorem task_ids_never_reused (st : db) (rs : list (Z * request))
  (now owner : Z) (b : task_body) (t : task) (c : created_task) :
  seqs_ok st ->
  In t (tasks st) ->
  fst (post_task (run st rs) now owner b) = Json c ->
  t_id t < ct_id c.
Proof.
  intros H Hin Hc.
  destruct (run_keeps_seqs rs st H) as (_ & _ & Hmono & _).
  destruct H as (_ & Ht & _). rewrite Forall_forall in Ht.
  specialize (Ht t Hin).
  unfold post_task, insert_task in Hc.
  destruct (b_title b); [|discriminate].
  destruct (foreign_keys (run st rs) && negb (user_exists (run st rs) owner));
    [discriminate|].
  simpl in Hc. inversion Hc; subst c; simpl.
  pose proof (next_rowid_above (tasks_seq (run st rs))
                (map t_id (tasks (run st rs)))). lia.
Qed.

Lemma sample_seqs_ok : seqs_ok sample_db.
Proof. repeat split; repeat constructor; simpl; lia. Qed.

Lemma task_ids_never_reused_witness :
  t_id water_plants <
  ct_id {| ct_id := 4; ct_title := Some "Again"; ct_completed := 0;
           ct_subtasks := [] |}.
Proof.
  apply (task_ids_never_reused sample_db [(1200000, DeleteTask 2 (KInt 3))]
           1200001 2 (title_only (Some "Again")) water_plants).
  - exact sample_seqs_ok.
  - right; right; left; reflexivity.
  - reflexivity.
Defined.

(** X4: the same for subtasks: the id that CreateSubtask assigns is larger
    than the id of every subtask the table held at any earlier time. *)
Theorem subtask_ids_never_reused (st : db) (rs : list (Z * request))
  (k : key) (title : option string) (s : subtask) (c : created_subtask) :
  seqs_ok st ->
  In s (subtasks st) ->
  fst (post_subtask (run st rs) k title) = Json c ->
  s_id s < cs_id c.
Proof.
  intros H Hin Hc.
  destruct (run_keeps_seqs rs st H) as (_ & _ & _ & Hmono).
  destruct H as (_ & _ & Hs). rewrite Forall_forall in Hs.
  specialize (Hs s Hin).
  unfold post_subtask, insert_subtask in Hc.
  destruct title; [|discriminate].
  destruct (foreign_keys (run st rs) && negb (task_exists (run st rs) k));
    [discriminate|].
  simpl in Hc. inversion Hc; subst c; simpl.
  pose proof (next_rowid_above (subtasks_seq (run st rs))
                (map s_id (subtasks (run st rs)))). lia.
Qed.

Lemma subtask_ids_never_reused_witness :
  3 < cs_id {| cs_id := 4; cs_title := Some "prune"; cs_completed := 0 |}.
Proof.
  apply (subtask_ids_never_reused sample_db
           [(1200000, DeleteTask 2 (KInt 3))] (KInt 1) (Some "prune")
           {| s_id := 3; s_task_id := KInt 3; s_title := "fill can";
              s_completed := 0 |}).
  - exact sample_seqs_ok.
  - right; right; left; reflexivity.
  - reflexivity.
Defined.

(** ** Registration and login *)

Lemma str_truthy_some (s : string) :
  s <> "" -> str_truthy (Some s) = true.
Proof.
  intros H. simpl. destruct (String.eqb s "") eqn:E; [|reflexivity].
  apply String.eqb_eq in E. contradiction.
Qed.

Lemma email_taken_after (st : db) (e : string) (u : user) (seq : Z) :
  u_email u = e -> email_taken (with_users st (users st ++ [u]) seq) e = true.
Proof.
  intros H. unfold email_taken; simpl. rewrite existsb_app. simpl.
  rewrite H, String.eqb_refl. apply orb_true_iff. right. reflexivity.
Qed.

(** X5: Register with an email and a password that are not empty, on an
    email that no row has, answers a fresh id and appends exactly one user
    row: that id, the email, the hash, and as name the given name or, when
    the name is absent or empty, the email up to its at sign; tasks and
    subtasks stay as they were, and the email is taken afterwards. *)
Theorem register_creates_user (st : db) (e p : string) (n : option string)
  (h : string) :
  e <> "" -> p <> "" -> email_taken st e = false ->
  let id := next_rowid (users_seq st) (map u_id (users st)) in
  let st' := snd (register st (Some e) (Some p) n h) in
  fst (register st (Some e) (Some p) n h) = Json id /\
  users st' =
    users st ++
    [ {| u_id := id; u_email := e; u_password := h;
         u_name := or_else n (before_at e); u_avatar_url := None |} ] /\
  ~ In id (map u_id (users st)) /\
  tasks st' = tasks st /\ subtasks st' = subtasks st /\
  email_taken st' e = true.
Proof.
  intros He Hp Hfree id st'. subst id st'.
  unfold register, insert_user.
  rewrite (str_truthy_some e He), (str_truthy_some p Hp), Hfree. simpl.
  repeat split.
  - apply next_rowid_fresh.
  - apply email_taken_after. reflexivity.
Qed.

Lemma register_creates_user_witness :
  fst (register sample_db (Some "c@x.com") (Some "pw") None "$2a$10$c") =
    Json 3 /\
  map u_name
    (users (snd (register sample_db (Some "c@x.com") (Some "pw") None
                   "$2a$10$c"))) = ["Ann"; "b"; "c"].
Proof.
  destruct (register_creates_user sample_db "c@x.com" "pw" None "$2a$10$c")
    as (Hid & Hrows & _); try discriminate; try reflexivity.
  split; [exact Hid|]. rewrite Hrows. reflexivity.
Defined.

(** X6: a second registration of an email is always refused: after any
    Register of an email and password that are not empty, whether it
    succeeded or not, a Register of the same email with any password that is
    not empty answers the conflict error and changes nothing. *)
Theorem register_twice_conflicts (st : db) (e p p' : string)
  (n n' : option string) (h h' : string) :
  e <> "" -> p <> "" -> p' <> "" ->
  let st1 := snd (register st (Some e) (Some p) n h) in
  register st1 (Some e) (Some p') n' h' =
    (JsonError 400 "Email already exists", st1).
Proof.
  intros He Hp Hp' st1.
  assert (Htaken : email_taken st1 e = true).
  { subst st1. unfold register, insert_user.
    rewrite (str_truthy_some e He), (str_truthy_some p Hp). simpl.
    destruct (email_taken st e) eqn:E; simpl; [exact E|].
    apply email_taken_after. reflexivity. }
  unfold register at 1, insert_user.
  rewrite (str_truthy_some e He), (str_truthy_some p' Hp'), Htaken.
  reflexivity.
Qed.

Lemma register_twice_conflicts_witness :
  fst (register
         (snd (register open_db (Some "a@x.com") (Some "pw") None "h1"))
         (Some "a@x.com") (Some "other") (Some "Ann") "h2") =
    JsonError 400 "Email already exists".
Proof.
  rewrite (register_twice_conflicts open_db "a@x.com" "pw" "other" None
             (Some "Ann") "h1" "h2"); [reflexivity|discriminate..].
Defined.

(** X7: the default name is the part of the email before its first at sign:
    the email is that part followed by nothing or by an at sign and a rest,
    and the part holds no at sign. *)
Theorem before_at_splits (e : string) :
  (e = before_at e \/
   exists rest, e = String.append (before_at e) (String "@"%char rest)) /\
  includes "@" (before_at e) = false.
Proof.
  induction e as [|c e [IHsplit IHno]]; simpl.
  - split; [left; reflexivity|reflexivity].
  - destruct (Ascii.eqb c "@"%char) eqn:E.
    + apply Ascii.eqb_eq in E. subst c. split; [|reflexivity].
      right. exists e. reflexivity.
    + split.
      * destruct IHsplit as [H|[rest H]].
        -- left. f_equal. exact H.
        -- right. exists rest. simpl. f_equal. exact H.
      * cbn [includes String.prefix].
        destruct (ascii_dec "@"%char c) as [<-|_];
          [rewrite Ascii.eqb_refl in E; discriminate|].
        exact IHno.
Qed.

Section SessionFacts.

Variable bcrypt_compare : string -> string -> bool.
Variable jwt_sign : identity -> Z -> string.
Variable payload : Type.
Variable payload_id : payload -> Z.
Variable jwt_verify : string -> Z -> option payload.

Lemma find_unique_email (l : list user) (u : user) :
  NoDup (map u_email l) -> In u l ->
  find (fun x => String.eqb (u_email x) (u_email u)) l = Some u.
Proof.
  induction l as [|a l IH]; simpl; intros Hnd Hin; [contradiction|].
  inversion Hnd as [|x xs Ha Hl]; subst.
  destruct Hin as [->|Hin].
  - rewrite String.eqb_refl. reflexivity.
  - destruct (String.eqb (u_email a) (u_email u)) eqn:E.
    + apply String.eqb_eq in E. exfalso. apply Ha. rewrite E.
      apply in_map, Hin.
    + apply IH; assumption.
Qed.

Lemma find_last {A : Type} (q : A -> bool) (l : list A) (x : A) :
  existsb q l = false -> q x = true -> find q (l ++ [x]) = Some x.
Proof.
  intros Hl Hx. induction l as [|a l IH]; simpl.
  - rewrite Hx. reflexivity.
  - simpl in Hl. apply orb_false_iff in Hl as [Ha Hl].
    rewrite Ha. apply IH, Hl.
Qed.

(** X8: Login decides by the row of the email.  With unique emails, a login
    with the email of a user row succeeds exactly when the password matches
    the hash of that row, and then answers the id, email and name of that
    row and sets the token signed for them; otherwise, and for an email
    that no row has or an absent email, it answers 401 and sets no
    cookie. *)
Theorem login_decides_by_row (st : db) (now : Z) (password : string) :
  keys_ok st ->
  (forall u, In u (users st) ->
     login bcrypt_compare jwt_sign st now (Some (u_email u)) password =
       if bcrypt_compare password (u_password u)
       then
         (Json {| i_id := u_id u; i_email := u_email u; i_name := u_name u |},
          SetToken
            (jwt_sign
               {| i_id := u_id u; i_email := u_email u; i_name := u_name u |}
               now))
       else (JsonError 401 "Invalid credentials", KeepCookie)) /\
  (forall e, email_taken st e = false ->
     login bcrypt_compare jwt_sign st now (Some e) password =
       (JsonError 401 "Invalid credentials", KeepCookie)) /\
  login bcrypt_compare jwt_sign st now None password =
    (JsonError 401 "Invalid credentials", KeepCookie).
Proof.
  intros (_ & He & _). split; [|split].
  - intros u Hin. unfold login, user_by_email.
    rewrite (find_unique_email _ _ He Hin). reflexivity.
  - intros e Hfree. unfold login, user_by_email.
    destruct (find (fun u => String.eqb (u_email u) e) (users st))
      as [u|] eqn:F; [|reflexivity].
    apply find_some in F as [Hin Heq].
    unfold email_taken in Hfree. rewrite existsb_false_iff in Hfree.
    rewrite (Hfree u Hin) in Heq. discriminate.
  - reflexivity.
Qed.

(** X9: a login right after a successful registration, with the same email
    and a password that matches the stored hash, succeeds and answers the id
    that Register answered. *)
Theorem register_then_login (st : db) (now : Z) (e p : string)
  (n : option string) (h : string) :
  e <> "" -> p <> "" -> email_taken st e = false ->
  bcrypt_compare p h = true ->
  exists id,
    fst (register st (Some e) (Some p) n h) = Json id /\
    fst (login bcrypt_compare jwt_sign
           (snd (register st (Some e) (Some p) n h)) now (Some e) p) =
      Json {| i_id := id; i_email := e; i_name := or_else n (before_at e) |}.
Proof.
  intros He Hp Hfree Hmatch.
  exists (next_rowid (users_seq st) (map u_id (users st))).
  unfold register, insert_user.
  rewrite (str_truthy_some e He), (str_truthy_some p Hp), Hfree. simpl.
  split; [reflexivity|].
  unfold login, user_by_email; simpl.
  rewrite find_last.
  - simpl. rewrite Hmatch. reflexivity.
  - exact Hfree.
  - simpl. apply String.eqb_refl.
Qed.

(** X10: a protected route whose request carries no token, an empty token or
    a token that does not verify answers 401, leaves the cookie alone and
    leaves the database as it was: without a valid token nothing is read or
    written. *)
Theorem unauthenticated_is_refused (st : db) (now : Z)
  (token : option string) (r : route) :
  protected r = true ->
  (forall tok, token = Some tok -> tok <> "" -> jwt_verify tok now = None) ->
  exists msg,
    handle bcrypt_compare jwt_sign payload_id jwt_verify st now token r =
      (JsonError 401 msg, KeepCookie, st).
Proof.
  intros Hprot Hbad.
  assert (Hgate : forall next : payload -> response (answer payload) * db,
            exists msg,
              authenticate jwt_verify now token next st =
                (JsonError 401 msg, st)).
  { intros next. unfold authenticate.
    destruct token as [tok|]; simpl; [|eexists; reflexivity].
    destruct (String.eqb tok "") eqn:E; simpl; [eexists; reflexivity|].
    rewrite (Hbad tok eq_refl); [eexists; reflexivity|].
    intros ->. discriminate. }
  destruct r; try discriminate; simpl;
    match goal with
    | |- context [authenticate jwt_verify now token ?next st] =>
        destruct (Hgate next) as [msg ->]
    end; exists msg; reflexivity.
Qed.

(** Whatever a request does to the database is what [serve] does:
    a registration is the registration of [serve]; any other request either
    changes nothing or carries a token that verifies and is the request of
    [serve] made in the name of the id of the decoded token.  A login, a
    logout and a refused request change nothing. *)
Lemma handle_runs_serve (st : db) (now : Z) (token : option string)
  (r : route) :
  let st' :=
    snd (handle bcrypt_compare jwt_sign payload_id jwt_verify st now token r)
  in
  match r with
  | RRegister e p n h => st' = serve st now (PostRegister e p n h)
  | RLogin _ _ | RLogout => st' = st
  | _ =>
      st' = st \/
      exists tok u req,
        token = Some tok /\ jwt_verify tok now = Some u /\
        request_of payload_id u r = Some req /\
        st' = serve st now req
  end.
Proof.
  destruct r; simpl; try reflexivity;
    unfold authenticate;
    (destruct token as [tok|]; simpl; [|left; reflexivity]);
    (destruct (String.eqb tok ""); simpl; [left; reflexivity|]);
    (destruct (jwt_verify tok now) as [u|] eqn:V; [|left; reflexivity]);
    first
      [ right; exists tok, u; eexists;
        (split; [reflexivity|]); (split; [exact V|]); split; reflexivity
      | left; reflexivity ].
Qed.

End SessionFacts.

Lemma login_decides_by_row_witness :
  login sample_compare sample_sign sample_db 1200000 (Some "a@x.com") "ann" =
    (Json {| i_id := 1; i_email := "a@x.com"; i_name := "Ann" |},
     SetToken "a@x.com") /\
  login sample_compare sample_sign sample_db 1200000 (Some "a@x.com") "bob" =
    (JsonError 401 "Invalid credentials", KeepCookie).
Proof.
  destruct (login_decides_by_row sample_compare sample_sign sample_db 1200000
              "ann" sample_keys_ok) as [Hgood _].
  destruct (login_decides_by_row sample_compare sample_sign sample_db 1200000
              "bob" sample_keys_ok) as [Hbad _].
  split.
  - exact (Hgood ann (or_introl eq_refl)).
  - exact (Hbad ann (or_introl eq_refl)).
Defined.

Lemma register_then_login_witness :
  exists id,
    fst (register sample_db (Some "c@x.com") (Some "pw") None "$2a$10$pw") =
      Json id /\
    fst (login sample_compare sample_sign
           (snd (register sample_db (Some "c@x.com") (Some "pw") None
                   "$2a$10$pw"))
           1200000 (Some "c@x.com") "pw") =
      Json {| i_id := id; i_email := "c@x.com"; i_name := "c" |}.
Proof.
  apply (register_then_login sample_compare sample_sign sample_db 1200000
           "c@x.com" "pw" None "$2a$10$pw");
    try discriminate; reflexivity.
Defined.

Lemma unauthenticated_is_refused_witness :
  exists msg,
    handle sample_compare sample_sign i_id sample_verify sample_db 1200000
      (Some "forged") (RDeleteTask (KInt 1)) =
      (JsonError 401 msg, KeepCookie, sample_db).
Proof.
  apply unauthenticated_is_refused; [reflexivity|].
  intros tok H _. inversion H; subst tok. reflexivity.
Defined.

(** ** Updates and deletes, repeated *)

Lemma selects_updated (k : key) (owner : Z) (b : task_body) (ttl : string)
  (c : Z) (t : task) :
  selects k owner (update_row b ttl c t) = selects k owner t.
Proof. reflexivity. Qed.

Lemma owns_updated (st : db) (k : key) (owner : Z) (f : task -> task)
  (seq : Z) :
  (forall t, selects k owner (f t) = selects k owner t) ->
  owns (with_tasks st
          (map (fun t => if selects k owner t then f t else t) (tasks st))
          seq) owner k = owns st owner k.
Proof.
  intros Hf. unfold owns; simpl.
  induction (tasks st) as [|t l IH]; simpl; [reflexivity|].
  rewrite IH. f_equal.
  destruct (selects k owner t) eqn:E; [rewrite Hf|]; exact E.
Qed.

(** X11: UpdateTask is idempotent: sending the same update twice leaves the
    database as the first one left it, and the second answer is the first
    answer. *)
Theorem put_task_idempotent (st : db) (owner : Z) (id : key)
  (b : task_body) :
  put_task (snd (put_task st owner id b)) owner id b =
  (fst (put_task st owner id b), snd (put_task st owner id b)).
Proof.
  unfold put_task, update_task.
  destruct (owns st owner id) eqn:Hown.
  - destruct (b_title b) as [ttl|] eqn:Httl; simpl.
    + rewrite owns_updated by reflexivity. rewrite Hown.
      unfold with_tasks; simpl. do 2 f_equal. rewrite map_map.
      apply map_ext. intros t.
      destruct (selects id owner t) eqn:E.
      * rewrite selects_updated, E. reflexivity.
      * rewrite E. reflexivity.
    + rewrite Hown. reflexivity.
  - simpl. rewrite Hown. reflexivity.
Qed.

(** X12: DeleteTask is idempotent: a second delete of the same id by the
    same user answers success and finds nothing left to remove. *)
Theorem delete_task_idempotent (st : db) (owner : Z) (id : key) :
  delete_task (snd (delete_task st owner id)) owner id =
  (Json Success, snd (delete_task st owner id)).
Proof.
  unfold delete_task; simpl. f_equal.
  apply delete_unselected. unfold owns. apply existsb_false_iff.
  intros t Ht. simpl in Ht. apply filter_In in Ht as [_ Ht].
  apply negb_true_iff in Ht. exact Ht.
Qed.

(** ** What one user's task requests do to another user *)

Lemma filter_and {A : Type} (p q : A -> bool) (l : list A) :
  filter (fun x => p x && q x) l = filter q (filter p l).
Proof.
  induction l as [|a l IH]; simpl; [reflexivity|].
  destruct (p a); simpl; [|exact IH].
  destruct (q a); rewrite IH; reflexivity.
Qed.

(** The statistics of a user are a function of that user's task rows. *)
Lemma get_stats_by_rows (st st' : db) (now owner : Z) :
  tasks_of st owner = tasks_of st' owner ->
  get_stats st now owner = get_stats st' now owner.
Proof.
  intros H. unfold get_stats. rewrite !filter_and.
  fold (tasks_of st owner) (tasks_of st' owner). rewrite H. reflexivity.
Qed.

Lemma NoDup_map_inj {A B : Type} (f : A -> B) (l : list A) (x y : A) :
  NoDup (map f l) -> In x l -> In y l -> f x = f y -> x = y.
Proof.
  induction l as [|a l IH]; simpl; intros Hnd Hx Hy Hf; [contradiction|].
  inversion Hnd as [|z zs Ha Hl]; subst.
  destruct Hx as [->|Hx], Hy as [->|Hy].
  - reflexivity.
  - exfalso. apply Ha. rewrite Hf. apply in_map, Hy.
  - exfalso. apply Ha. rewrite <- Hf. apply in_map, Hx.
  - apply IH; assumption.
Qed.

Lemma filter_filter_same {A : Type} (p q : A -> bool) (l : list A) :
  (forall x, In x l -> p x = true -> q x = true) ->
  filter p (filter q l) = filter p l.
Proof.
  intros H. induction l as [|a l IH]; simpl; [reflexivity|].
  assert (IH' : filter p (filter q l) = filter p l)
    by (apply IH; intros x Hx; apply H; right; exact Hx).
  destruct (q a) eqn:Q; simpl.
  - rewrite IH'. reflexivity.
  - destruct (p a) eqn:P; [|exact IH'].
    rewrite (H a (or_introl eq_refl) P) in Q. discriminate.
Qed.

Lemma filter_map_fixed {A : Type} (p : A -> bool) (f : A -> A)
  (l : list A) :
  (forall x, p (f x) = p x) -> (forall x, p x = true -> f x = x) ->
  filter p (map f l) = filter p l.
Proof.
  intros Hp Hf. induction l as [|a l IH]; simpl; [reflexivity|].
  rewrite Hp. destruct (p a) eqn:E; [|exact IH].
  rewrite (Hf a E), IH. reflexivity.
Qed.

Lemma not_selected_by_other (k : key) (owner other : Z) (t : task) :
  owner <> other -> owned_by other t = true -> selects k owner t = false.
Proof.
  intros Hne Ho. unfold owned_by in Ho. apply Z.eqb_eq in Ho.
  unfold selects. rewrite (proj2 (Z.eqb_neq (t_user_id t) owner)) by lia.
  apply andb_false_r.
Qed.

Lemma tasks_of_other (st : db) (now : Z) (r : request) (owner other : Z) :
  task_request_of owner r -> owner <> other ->
  tasks_of (serve st now r) other = tasks_of st other.
Proof.
  intros Hr Hne. unfold tasks_of.
  destruct r; simpl in Hr; try contradiction; subst owner0; simpl.
  - destruct (post_task_outcome st now owner b) as [->|(ttl & _ & _ & ->)];
      [reflexivity|].
    simpl. rewrite filter_app. simpl. unfold owned_by at 2. simpl.
    rewrite (proj2 (Z.eqb_neq owner other) Hne). apply app_nil_r.
  - destruct (put_task_outcome st owner id b) as [->|(ttl & _ & ->)];
      [reflexivity|].
    simpl. apply filter_map_fixed.
    + intros t. destruct (selects id owner t); reflexivity.
    + intros t Ho.
      rewrite (not_selected_by_other id owner other t Hne Ho). reflexivity.
  - apply filter_filter_same. intros t _ Ho.
    rewrite (not_selected_by_other id owner other t Hne Ho). reflexivity.
Qed.

Lemma subtasks_of_other (st : db) (now : Z) (r : request) (owner other : Z)
  (t : task) :
  NoDup (map t_id (tasks st)) ->
  task_request_of owner r -> owner <> other ->
  In t (tasks st) -> t_user_id t = other ->
  subtasks_of (serve st now r) (t_id t) = subtasks_of st (t_id t).
Proof.
  intros Hnd Hr Hne Hin Ho. unfold subtasks_of.
  destruct r; simpl in Hr; try contradiction; subst owner0; simpl.
  - destruct (post_task_outcome st now owner b) as [->|(ttl & _ & _ & ->)];
      reflexivity.
  - destruct (put_task_outcome st owner id b) as [->|(ttl & _ & ->)];
      reflexivity.
  - destruct (foreign_keys st); [|reflexivity].
    apply filter_filter_same. intros s _ Hk.
    apply negb_true_iff, existsb_false_iff. intros x Hx.
    apply in_map_iff in Hx as [t' [<- Ht']].
    apply filter_In in Ht' as [Hin' Hsel].
    destruct (key_is (s_task_id s) (t_id t')) eqn:Hk'; [|reflexivity].
    exfalso. apply Hne.
    destruct (s_task_id s) as [z|txt]; simpl in Hk, Hk'; [|discriminate].
    apply Z.eqb_eq in Hk, Hk'.
    assert (t' = t)
      by (apply (NoDup_map_inj t_id (tasks st)); congruence).
    subst t'. unfold selects in Hsel.
    apply andb_true_iff in Hsel as [_ Hu]. apply Z.eqb_eq in Hu. congruence.
Qed.

Lemma listed_rows_are_owned (st : db) (owner : Z) (t : task) :
  In t (order_by_created_desc (tasks_of st owner)) ->
  In t (tasks st) /\ t_user_id t = owner.
Proof.
  intros H. apply (Permutation_in _ (order_by_created_desc_perm _)) in H.
  apply filter_In in H as [Hin Ho]. split; [exact Hin|apply Z.eqb_eq, Ho].
Qed.

(** X13: a user's task requests are invisible to every other user: after
    CreateTask, UpdateTask or DeleteTask by one user, the listing (tasks
    with their subtasks) and the statistics of any other user are what they
    were.  Task ids are unique, as the primary key makes them. *)
Theorem task_requests_stay_private (st : db) (now : Z) (r : request)
  (owner other : Z) :
  NoDup (map t_id (tasks st)) ->
  task_request_of owner r ->
  owner <> other ->
  get_tasks (serve st now r) other = get_tasks st other /\
  forall at_time,
    get_stats (serve st now r) at_time other = get_stats st at_time other.
Proof.
  intros Hnd Hr Hne.
  pose proof (tasks_of_other st now r owner other Hr Hne) as Hrows.
  split.
  - unfold get_tasks. fold (tasks_of (serve st now r) other).
    fold (tasks_of st other). rewrite Hrows.
    apply map_ext_in. intros t Ht. f_equal.
    apply listed_rows_are_owned in Ht as [Hin Ho].
    apply (subtasks_of_other st now r owner other); assumption.
  - intros at_time. apply get_stats_by_rows. exact Hrows.
Qed.

Lemma task_requests_stay_private_witness :
  get_tasks (serve sample_db 1200000 (DeleteTask 1 (KInt 1))) 2 =
  get_tasks sample_db 2.
Proof.
  apply (task_requests_stay_private sample_db 1200000
           (DeleteTask 1 (KInt 1)) 1 2).
  - apply sample_keys_ok.
  - reflexivity.
  - discriminate.
Defined.

(** ** Subtask requests *)

(** X14: UpdateSubtask looks at the subtask id alone.  Whoever the caller
    is, and whoever owns the task, the row with that id gets the coerced
    flag and keeps its task and title; rows with another id, the number of
    rows and all tasks stay as they were. *)
Theorem put_subtask_reaches_any_row (st : db) (now caller id : Z)
  (c : option json) (s : subtask) :
  In s (subtasks st) -> s_id s = id ->
  let st' := serve st now (PutSubtask caller (KInt id) c) in
  In {| s_id := id; s_task_id := s_task_id s; s_title := s_title s;
        s_completed := b2z (truthy c) |} (subtasks st') /\
  (forall s', s_id s' <> id ->
     (In s' (subtasks st') <-> In s' (subtasks st))) /\
  List.length (subtasks st') = List.length (subtasks st) /\
  tasks st' = tasks st.
Proof.
  intros Hin Hid st'. subst st'. simpl. split; [|split; [|split]].
  - apply in_map_iff. exists s. split; [|exact Hin].
    rewrite Hid, Z.eqb_refl. reflexivity.
  - intros s' Hne. rewrite in_map_iff. split.
    + intros [s0 [Heq Hin0]].
      destruct (id =? s_id s0) eqn:E.
      * apply Z.eqb_eq in E. subst s'. simpl in Hne. congruence.
      * subst s'. exact Hin0.
    + intros Hin'. exists s'. split; [|exact Hin'].
      rewrite (proj2 (Z.eqb_neq id (s_id s'))) by congruence. reflexivity.
  - apply length_map.
  - reflexivity.
Qed.

Lemma put_subtask_reaches_any_row_witness :
  In {| s_id := 3; s_task_id := KInt 3; s_title := "fill can";
        s_completed := 1 |}
    (subtasks (serve sample_db 1200000
                 (PutSubtask 1 (KInt 3) (Some (JBool true))))).
Proof.
  destruct (put_subtask_reaches_any_row sample_db 1200000 1 3
              (Some (JBool true))
              {| s_id := 3; s_task_id := KInt 3; s_title := "fill can";
                 s_completed := 0 |}) as [H _].
  - right; right; left; reflexivity.
  - reflexivity.
  - exact H.
Defined.

Lemma get_tasks_by_subtasks (st st' : db) (owner : Z) :
  tasks st' = tasks st ->
  get_tasks st' owner =
  map (fun x => {| tw_task := tw_task x;
                   tw_subtasks := subtasks_of st' (t_id (tw_task x)) |})
    (get_tasks st owner).
Proof.
  intros H. unfold get_tasks. rewrite H, map_map. reflexivity.
Qed.

(** X15: a subtask created under an existing task shows in the next
    listing of every user at the end of the subtasks of the task with that
    id, and nowhere else: the listing is the old one with the new row
    appended to that task's subtasks. *)
Theorem created_subtask_is_listed (st : db) (id : Z) (ttl : string)
  (owner : Z) :
  task_exists st (KInt id) = true ->
  let st' := snd (post_subtask st (KInt id) (Some ttl)) in
  let row := {| s_id := next_rowid (subtasks_seq st) (map s_id (subtasks st));
                s_task_id := KInt id; s_title := ttl; s_completed := 0 |} in
  get_tasks st' owner =
  map (fun x =>
         if t_id (tw_task x) =? id
         then {| tw_task := tw_task x;
                 tw_subtasks := tw_subtasks x ++ [row] |}
         else x) (get_tasks st owner).
Proof.
  intros Hex st' row.
  assert (Hst : st' =
                with_subtasks st (subtasks st ++ [row]) (s_id row)).
  { subst st' row. unfold post_subtask, insert_subtask.
    rewrite Hex. simpl. rewrite andb_false_r. reflexivity. }
  rewrite (get_tasks_by_subtasks st st') by (rewrite Hst; reflexivity).
  unfold get_tasks. rewrite !map_map. apply map_ext. intros t. simpl.
  rewrite Hst. unfold subtasks_of; simpl. rewrite filter_app. simpl.
  rewrite (Z.eqb_sym id). destruct (t_id t =? id); [reflexivity|].
  rewrite app_nil_r. reflexivity.
Qed.

Lemma created_subtask_is_listed_witness :
  map (fun x => (t_id (tw_task x), map s_title (tw_subtasks x)))
    (get_tasks (snd (post_subtask sample_db (KInt 3) (Some "buy soil"))) 2) =
  [(3, ["fill can"; "buy soil"])].
Proof.
  rewrite (created_subtask_is_listed sample_db 3 "buy soil" 2 eq_refl).
  reflexivity.
Defined.

(** ** Creating, then listing *)

Lemma order_snoc_newest (row : task) (l : list task) :
  Forall (fun t => t_created_at t < t_created_at row) l ->
  order_by_created_desc (l ++ [row]) = row :: order_by_created_desc l.
Proof.
  unfold order_by_created_desc. rewrite fold_right_app. simpl.
  induction 1 as [|x l Hx Hl IH]; simpl; [reflexivity|].
  rewrite IH. simpl.
  rewrite (proj2 (Z.leb_gt _ _)) by lia. reflexivity.
Qed.

Lemma order_snoc_perm (row : task) (l : list task) :
  Permutation (order_by_created_desc (l ++ [row]))
    (row :: order_by_created_desc l).
Proof.
  rewrite !order_by_created_desc_perm.
  rewrite Permutation_app_comm. reflexivity.
Qed.

(** No subtask hangs on an id that no task has. *)
Lemma no_subtasks_of_absent (st : db) (id : Z) :
  refs_ok st -> ~ In id (map t_id (tasks st)) -> subtasks_of st id = [].
Proof.
  intros (_ & _ & Hs) Hfresh. unfold subtasks_of. apply filter_none.
  intros s Hin. rewrite Forall_forall in Hs. specialize (Hs s Hin).
  destruct (key_is (s_task_id s) id) eqn:E; [|reflexivity].
  exfalso. apply Hfresh.
  unfold task_exists in Hs. apply existsb_exists in Hs as [t [Ht Hk]].
  destruct (s_task_id s) as [z|txt]; simpl in E, Hk; [|discriminate].
  apply Z.eqb_eq in E, Hk. rewrite <- E, Hk. apply in_map, Ht.
Qed.

(** X16: a task created with a title shows in the owner's next listing with
    no subtasks, beside the tasks listed before, which are unchanged; when
    every earlier task of the table is strictly older than the request, the
    new task is the first of the listing. *)
Theorem created_task_is_listed (st : db) (now owner : Z) (b : task_body)
  (ttl : string) :
  refs_ok st ->
  user_exists st owner = true ->
  b_title b = Some ttl ->
  let st' := snd (post_task st now owner b) in
  let row :=
    {| t_id := next_rowid (tasks_seq st) (map t_id (tasks st));
       t_user_id := owner; t_title := ttl;
       t_description := b_description b;
       t_priority := Some (or_else (b_priority b) "medium");
       t_category := Some (or_else (b_category b) "General");
       t_due_date := b_due_date b;
       t_completed := 0; t_created_at := now |} in
  let shown := {| tw_task := row; tw_subtasks := [] |} in
  Permutation (get_tasks st' owner) (shown :: get_tasks st owner) /\
  (Forall (fun t => t_created_at t < now) (tasks st) ->
   get_tasks st' owner = shown :: get_tasks st owner).
Proof.
  intros Hrefs Hu Httl st' row shown.
  assert (Hst : st' = with_tasks st (tasks st ++ [row]) (t_id row)).
  { subst st' row. unfold post_task, insert_task.
    rewrite Httl, Hu, andb_false_r. reflexivity. }
  assert (Hrows : tasks_of st' owner = tasks_of st owner ++ [row]).
  { rewrite Hst. unfold tasks_of; simpl. rewrite filter_app. simpl.
    unfold owned_by at 2. simpl. rewrite Z.eqb_refl. reflexivity. }
  assert (Hnone : subtasks_of st (t_id row) = [])
    by (apply no_subtasks_of_absent; [exact Hrefs|apply next_rowid_fresh]).
  assert (Hshape : forall l,
            map (fun t => {| tw_task := t;
                             tw_subtasks := subtasks_of st' (t_id t) |})
              (row :: l) =
            shown :: map (fun t => {| tw_task := t;
                                      tw_subtasks := subtasks_of st (t_id t) |})
                       l).
  { intros l. simpl. f_equal.
    - unfold shown. f_equal. rewrite Hst. exact Hnone.
    - apply map_ext. intros t. rewrite Hst. reflexivity. }
  unfold get_tasks. fold (tasks_of st' owner) (tasks_of st owner).
  rewrite Hrows. split.
  - rewrite <- Hshape. apply Permutation_map, order_snoc_perm.
  - intros Hold. rewrite <- Hshape. f_equal.
    apply order_snoc_newest. apply Forall_filter_keep. exact Hold.
Qed.

Lemma created_task_is_listed_witness :
  map (fun x => (t_title (tw_task x), tw_subtasks x))
    (get_tasks
       (snd (post_task sample_db 1200000 2 (title_only (Some "Repot"))))
       2) =
  [("Repot", []); ("Water plants", subtasks_of sample_db 3)].
Proof.
  destruct (created_task_is_listed sample_db 1200000 2
              (title_only (Some "Repot")) "Repot" sample_refs_ok
              eq_refl eq_refl) as [_ H].
  rewrite H; [reflexivity|].
  repeat constructor; simpl; lia.
Defined.

(** ** Deleting, then listing *)

Lemma insert_desc_filter (p : task -> bool) (t : task) (l : list task) :
  StronglySorted newer_first l ->
  filter p (insert_desc t l) =
  if p t then insert_desc t (filter p l) else filter p l.
Proof.
  induction l as [|x l IH]; intros Hs; simpl.
  - destruct (p t); reflexivity.
  - inversion Hs as [|x' l' Hl Hx]; subst.
    destruct (t_created_at x <=? t_created_at t) eqn:E; simpl.
    + destruct (p t) eqn:Pt; destruct (p x) eqn:Px; simpl;
        try rewrite E; try reflexivity.
      (* [x] is filtered out: [t] still goes in front of what follows *)
      assert (Hall : Forall (fun y => t_created_at y <= t_created_at t)
                       (filter p l)).
      { apply Forall_filter_keep. eapply Forall_impl; [|exact Hx].
        intros y Hy. apply Z.leb_le in E. unfold newer_first in Hy. lia. }
      destruct (filter p l) as [|y ys]; [reflexivity|]. simpl.
      inversion Hall as [|y' ys' Hy _]; subst.
      rewrite (proj2 (Z.leb_le _ _) Hy). reflexivity.
    + rewrite (IH Hl). destruct (p t), (p x); simpl; try rewrite E;
        reflexivity.
Qed.

Lemma order_filter (p : task -> bool) (l : list task) :
  order_by_created_desc (filter p l) = filter p (order_by_created_desc l).
Proof.
  induction l as [|t l IH]; simpl; [reflexivity|].
  rewrite insert_desc_filter by apply order_by_created_desc_sorted.
  destruct (p t); simpl; rewrite IH; reflexivity.
Qed.

Lemma filter_map_swap {A B : Type} (f : A -> B) (p : B -> bool)
  (l : list A) :
  filter p (map f l) = map f (filter (fun x => p (f x)) l).
Proof.
  induction l as [|a l IH]; simpl; [reflexivity|].
  destruct (p (f a)); simpl; rewrite IH; reflexivity.
Qed.

Lemma filter_filter_swap {A : Type} (p q r : A -> bool) (l : list A) :
  (forall x, p x = true -> q x = r x) ->
  filter p (filter q l) = filter r (filter p l).
Proof.
  intros H. induction l as [|a l IH]; simpl; [reflexivity|].
  destruct (p a) eqn:P; simpl.
  - rewrite <- (H a P). destruct (q a); simpl; rewrite ?P, IH; reflexivity.
  - destruct (q a); simpl; rewrite ?P; exact IH.
Qed.

Lemma subtasks_of_kept (st : db) (owner id other : Z) :
  foreign_keys st = true -> other <> id ->
  subtasks_of (delete_task_rows st (KInt id) owner) other =
  subtasks_of st other.
Proof.
  intros Hfk Hne. destruct (owns st owner (KInt id)) eqn:Hown.
  - unfold subtasks_of. rewrite (cascade_of_owned st owner id Hfk Hown).
    apply filter_filter_same. intros s _ Hk.
    destruct (s_task_id s) as [z|txt]; simpl in *; [|discriminate].
    apply Z.eqb_eq in Hk. subst z.
    rewrite (proj2 (Z.eqb_neq other id) Hne). reflexivity.
  - rewrite (delete_unselected st owner (KInt id) Hown). reflexivity.
Qed.

(** X17: after DeleteTask the owner's listing is the old listing without
    the entries of that id, every other entry with the subtasks it had: what
    the client shows after a delete, before it fetches again, is what the
    server would list. *)
Theorem listing_after_delete (st : db) (owner id : Z) :
  foreign_keys st = true ->
  get_tasks (snd (delete_task st owner (KInt id))) owner =
  shown_after_delete id (get_tasks st owner).
Proof.
  intros Hfk. unfold shown_after_delete, get_tasks, delete_task; simpl.
  rewrite filter_map_swap. simpl.
  rewrite <- order_filter.
  assert (Hrows :
            filter (owned_by owner)
              (filter (fun t => negb (selects (KInt id) owner t)) (tasks st))
            = filter (fun t => negb (t_id t =? id))
                (filter (owned_by owner) (tasks st))).
  { apply filter_filter_swap. intros t Ho.
    unfold selects, owned_by in *. simpl. rewrite Ho, andb_true_r.
    rewrite (Z.eqb_sym id). reflexivity. }
  rewrite Hrows. apply map_ext_in. intros t Ht. f_equal.
  apply (Permutation_in _ (order_by_created_desc_perm _)) in Ht.
  apply filter_In in Ht as [_ Hne]. apply negb_true_iff, Z.eqb_neq in Hne.
  apply (subtasks_of_kept st owner id (t_id t) Hfk Hne).
Qed.

Lemma listing_after_delete_witness :
  map (fun x => t_id (tw_task x))
    (get_tasks (snd (delete_task sample_db 1 (KInt 2))) 1) = [1].
Proof.
  rewrite (listing_after_delete sample_db 1 2 eq_refl). reflexivity.
Defined.

(** ** The client's toggle *)

Lemma toggle_row (t : task) :
  update_row (toggle_body t) (t_title t)
    (b2z (truthy (b_completed (toggle_body t)))) t =
  with_completed t (flip (t_completed t)).
Proof.
  unfold flip. destruct t as [i u ttl d p c due done at_]. simpl.
  destruct (done =? 0); reflexivity.
Qed.

(** The PUT that [toggleTask] sends rewrites the row of that id, and only
    its flag. *)
Lemma put_toggle (st : db) (t : task) :
  NoDup (map t_id (tasks st)) -> In t (tasks st) ->
  put_task st (t_user_id t) (KInt (t_id t)) (toggle_body t) =
  (Json Success,
   with_tasks st
     (map (fun x => if t_id x =? t_id t
                    then with_completed x (flip (t_completed t)) else x)
        (tasks st))
     (tasks_seq st)).
Proof.
  intros Hnd Hin. unfold put_task, update_task.
  assert (Hown : owns st (t_user_id t) (KInt (t_id t)) = true).
  { apply existsb_exists. exists t. split; [exact Hin|].
    unfold selects. simpl. rewrite !Z.eqb_refl. reflexivity. }
  rewrite Hown. simpl. f_equal. unfold with_tasks. f_equal.
  apply map_ext_in. intros x Hx. unfold selects. simpl.
  rewrite (Z.eqb_sym (t_id t)).
  destruct (t_id x =? t_id t) eqn:E; simpl; [|reflexivity].
  apply Z.eqb_eq in E.
  assert (x = t) by (apply (NoDup_map_inj t_id (tasks st)); assumption).
  subst x. rewrite Z.eqb_refl. apply toggle_row.
Qed.

Lemma flip_flip (c : Z) : flag c -> flip (flip c) = c.
Proof. intros [->| ->]; reflexivity. Qed.




Lemma insert_desc_map (h : task -> task) (t : task) (l : list task) :
  (forall x, t_created_at (h x) = t_created_at x) ->
  insert_desc (h t) (map h l) = map h (insert_desc t l).
Proof.
  intros Hh. induction l as [|x l IH]; simpl; [reflexivity|].
  rewrite !Hh. destruct (t_created_at x <=? t_created_at t); simpl;
    [reflexivity|]. rewrite IH. reflexivity.
Qed.

Lemma order_map (h : task -> task) (l : list task) :
  (forall x, t_created_at (h x) = t_created_at x) ->
  order_by_created_desc (map h l) = map h (order_by_created_desc l).
Proof.
  intros Hh. induction l as [|t l IH]; simpl; [reflexivity|].
  rewrite IH. apply insert_desc_map, Hh.
Qed.

(** X19: the list that [toggleTask] shows after its PUT, the old list with
    the flag of that task changed, is the listing the server gives next. *)
Theorem listing_after_toggle (st : db) (t : task) :
  NoDup (map t_id (tasks st)) ->
  In t (tasks st) ->
  get_tasks
    (snd (put_task st (t_user_id t) (KInt (t_id t)) (toggle_body t)))
    (t_user_id t) =
  shown_after_toggle t (get_tasks st (t_user_id t)).
Proof.
  intros Hnd Hin. rewrite put_toggle by assumption. cbn [snd].
  unfold shown_after_toggle, get_tasks. fold (flip (t_completed t)).
  set (h := fun x => if t_id x =? t_id t
                     then with_completed x (flip (t_completed t)) else x).
  unfold with_tasks. cbn [tasks].
  rewrite filter_map_swap.
  rewrite (filter_ext (fun x => owned_by (t_user_id t) (h x))
             (owned_by (t_user_id t)))
    by (intros x; unfold h; destruct (t_id x =? t_id t); reflexivity).
  rewrite order_map
    by (intros x; unfold h; destruct (t_id x =? t_id t); reflexivity).
  rewrite !map_map. apply map_ext. intros x. cbn [tw_task tw_subtasks].
  unfold h. destruct (t_id x =? t_id t); reflexivity.
Qed.

Lemma listing_after_toggle_witness :
  map (fun x => (t_id (tw_task x), t_completed (tw_task x)))
    (get_tasks (snd (put_task sample_db 1 (KInt 1) (toggle_body ship_release)))
       1) = [(2, 1); (1, 1)].
Proof.
  exact (f_equal
           (map (fun x => (t_id (tw_task x), t_completed (tw_task x))))
           (listing_after_toggle sample_db ship_release
              (proj1 (proj2 (proj2 sample_keys_ok)))
              (or_introl eq_refl))).
Defined.

(** ** Statistics against the listing *)

Lemma filter_length_disjoint {A : Type} (p q : A -> bool) (l : list A) :
  (forall x, p x = true -> q x = false) ->
  (List.length (filter p l) + List.length (filter q l) <= List.length l)%nat.
Proof.
  intros H. induction l as [|a l IH]; simpl; [lia|].
  destruct (p a) eqn:P; [rewrite (H a P)|destruct (q a)]; simpl; lia.
Qed.

Lemma sql_sum_tests {A : Type} (p : A -> bool) (l : list A) :
  or_zero (sql_sum (map (fun x => b2z (p x)) l)) =
  Z.of_nat (List.length (filter p l)).
Proof.
  destruct l as [|a l]; [reflexivity|].
  rewrite sql_sum_some by discriminate. apply sum_of_tests.
Qed.

(** X20: the numbers of ComputeStats fit together and fit the listing.
    With null read as 0, completed and high_priority_pending are not
    negative and together are at most total; the weekly counts add up to at
    most total; and total is the number of entries of the owner's
    listing. *)
Theorem stats_fit_together (st : db) (now owner : Z) :
  let s := get_stats st now owner in
  0 <= or_zero (completed s) /\
  0 <= or_zero (high_priority_pending s) /\
  or_zero (completed s) + or_zero (high_priority_pending s) <= total s /\
  fold_right Z.add 0 (map snd (weekly s)) <= total s /\
  total s = Z.of_nat (List.length (get_tasks st owner)).
Proof.
  intros s. subst s. unfold get_stats.
  cbn [total completed high_priority_pending weekly].
  rewrite !sql_sum_tests, group_total, length_map.
  rewrite (filter_and (owned_by owner) (in_week now)).
  set (mine := filter (owned_by owner) (tasks st)).
  pose proof (filter_length_disjoint
                (fun t => t_completed t =? 1)
                (fun t => is_high t && (t_completed t =? 0)) mine) as Hd.
  pose proof (filter_length (in_week now) mine) as Hw.
  repeat split; try lia.
  - assert (forall x : task,
              (t_completed x =? 1) = true ->
              is_high x && (t_completed x =? 0) = false).
    { intros x Hx. apply Z.eqb_eq in Hx. rewrite Hx.
      apply andb_false_r. }
    specialize (Hd H). lia.
  - unfold get_tasks. rewrite length_map.
    rewrite (Permutation_length (order_by_created_desc_perm _)).
    reflexivity.
Qed.

(** X21: the two slices of the client's chart are not negative and add up
    to the total of the statistics, also for a user without tasks, whose
    completed count comes as null. *)
Theorem pie_slices_add_up (st : db) (now owner : Z) :
  exists done pending,
    pieData (Some (get_stats st now owner)) =
      [("Completed", done); ("Pending", pending)] /\
    0 <= done /\ 0 <= pending /\
    done + pending = total (get_stats st now owner) /\
    done = Z.of_nat (List.length (completed_of st owner)).
Proof.
  exists (or_zero (completed (get_stats st now owner))).
  exists (total (get_stats st now owner) -
          or_zero (completed (get_stats st now owner))).
  split; [reflexivity|].
  unfold get_stats. cbn [total completed]. rewrite sql_sum_tests.
  unfold completed_of, is_completed, tasks_of.
  match goal with
  | |- context [List.length (filter ?p ?l)] =>
      pose proof (filter_length_le p l)
  end.
  repeat split; lia.
Qed.

Example pie_of_nobody :
  pieData (Some (get_stats open_db 0 1)) =
    [("Completed", 0); ("Pending", 0)] /\
  pieData None = [].
Proof. split; reflexivity. Qed.

(** ** What no request changes *)

(** Every task row after a request descends from a row before it with the
    same id, owner and creation time, or carries an id the table did not
    hold. *)
Lemma rows_descend (st : db) (now : Z) (r : request) (t' : task) :
  In t' (tasks (serve st now r)) ->
  (exists t, In t (tasks st) /\ t_id t = t_id t' /\
             t_user_id t = t_user_id t' /\
             t_created_at t = t_created_at t') \/
  ~ In (t_id t') (map t_id (tasks st)).
Proof.
  assert (Hsame : In t' (tasks st) ->
                  exists t, In t (tasks st) /\ t_id t = t_id t' /\
                            t_user_id t = t_user_id t' /\
                            t_created_at t = t_created_at t')
    by (intros H; exists t'; repeat split; exact H).
  destruct r; simpl; try (intros H; left; exact (Hsame H)).
  - destruct (register_keeps_tasks st email password name hashed)
      as (-> & _). intros H. left. exact (Hsame H).
  - destruct (post_task_outcome st now owner b) as [->|(ttl & _ & _ & ->)];
      [intros H; left; exact (Hsame H)|].
    simpl. intros H. apply in_app_or in H as [H|[<-|[]]].
    + left. exact (Hsame H).
    + right. simpl. apply next_rowid_fresh.
  - destruct (put_task_outcome st owner id b) as [->|(ttl & _ & ->)];
      [intros H; left; exact (Hsame H)|].
    simpl. intros H. apply in_map_iff in H as [t [<- Hin]].
    left. exists t. destruct (selects id owner t); repeat split; exact Hin.
  - intros H. apply filter_In in H as [H _]. left. exact (Hsame H).
  - destruct (post_subtask_outcome st taskId title)
      as [->|(ttl & _ & _ & ->)]; intros H; left; exact (Hsame H).
Qed.

(** X22: no request moves a task to another user or changes when it was
    created: a task id that is in the table before and after a request has
    the same owner and the same creation time. *)
Theorem owner_and_creation_time_are_kept (st : db) (now : Z) (r : request)
  (id : Z) (t t' : task) :
  NoDup (map t_id (tasks st)) ->
  find_task st id = Some t ->
  find_task (serve st now r) id = Some t' ->
  t_user_id t' = t_user_id t /\ t_created_at t' = t_created_at t.
Proof.
  intros Hnd Hfind Hfind'.
  apply find_some in Hfind as [Hin Hid]. apply Z.eqb_eq in Hid.
  apply find_some in Hfind' as [Hin' Hid']. apply Z.eqb_eq in Hid'.
  destruct (rows_descend st now r t' Hin') as [(x & Hx & Hxid & Hu & Hc)|Hnew].
  - assert (x = t)
      by (apply (NoDup_map_inj t_id (tasks st)); congruence).
    subst x. split; congruence.
  - exfalso. apply Hnew. rewrite Hid', <- Hid. apply in_map, Hin.
Qed.

Lemma owner_and_creation_time_are_kept_witness :
  t_user_id (update_row (title_only (Some "Renamed")) "Renamed" 0
               ship_release) = 1 /\
  t_created_at (update_row (title_only (Some "Renamed")) "Renamed" 0
                  ship_release) = 1000000.
Proof.
  apply (owner_and_creation_time_are_kept sample_db 1200000
           (PutTask 1 (KInt 1) (title_only (Some "Renamed"))) 1
           ship_release).
  - apply sample_keys_ok.
  - reflexivity.
  - reflexivity.
Defined.

(** X23: UpdateTask replaces, it does not merge: on a task of the user and
    with a title in the body, the row keeps its id, owner and creation time
    and takes every other field from the body, an absent description,
    priority, category or due date becoming NULL (the defaults of CreateTask
    are not applied), so that a task updated without a priority is no longer
    of high priority. *)
Theorem update_replaces_every_field (st : db) (id : Z) (t : task)
  (b : task_body) (ttl : string) :
  find_task st id = Some t ->
  b_title b = Some ttl ->
  exists t',
    find_task (snd (put_task st (t_user_id t) (KInt id) b)) id = Some t' /\
    t_id t' = t_id t /\ t_user_id t' = t_user_id t /\
    t_created_at t' = t_created_at t /\
    t_title t' = ttl /\
    t_description t' = b_description b /\
    t_priority t' = b_priority b /\
    t_category t' = b_category b /\
    t_due_date t' = b_due_date b /\
    t_completed t' = b2z (truthy (b_completed b)) /\
    (b_priority b = None -> is_high t' = false).
Proof.
  intros Hfind Httl.
  destruct (put_task_owned st id t b ttl Hfind Httl) as [_ H].
  eexists. split; [exact H|]. simpl. repeat split.
  intros Hp. unfold is_high. simpl. rewrite Hp. reflexivity.
Qed.

Lemma update_replaces_every_field_witness :
  exists t',
    find_task
      (snd (put_task sample_db 1 (KInt 1) (title_only (Some "Renamed")))) 1 =
      Some t' /\
    t_priority t' = None /\ t_category t' = None.
Proof.
  destruct (update_replaces_every_field sample_db 1 ship_release
              (title_only (Some "Renamed")) "Renamed" eq_refl eq_refl)
    as (t' & Hf & _ & _ & _ & _ & _ & Hp & Hc & _).
  exists t'. split; [exact Hf|]. split; [exact Hp|exact Hc].
Defined.
